(** * scripts/scrapper.py: the catalog scraper, embedded and verified

  The program walks a paginated product catalog, turns every listing
  row into a record and writes the records out twice (a JSON document
  and a CSV table).  The embedding follows the source function by
  function:

  - [fetch_page]               lines 18-27
  - [scrape_individual_tests]  lines 30-80 (the loop body is [iteration],
                               the per-row block is [extract])
  - [main]                     lines 83-95

  The three libraries the script calls are kept at their interface:
  the HTTP session is a deterministic [server] answering the n-th
  request, the HTML parser is a function from markup to a [Tag], and
  [urljoin] is a partial function on strings.  *)

From Stdlib Require Import String Ascii List ZArith Lia Bool Arith DecimalString.
From Stdlib Require Import DecimalPos DecimalZ.
Import ListNotations.
Local Open Scope string_scope.
Local Open Scope Z_scope.
Local Open Scope list_scope.

Set Implicit Arguments.

(** ** Python strings

  A [string] is read as a sequence of code points below 256. *)

Module PyStr.

(** [str.isspace] on one code point below 256: TAB..CR, FS..US, SPACE,
    NEL and NBSP. *)
Definition isspace (c : ascii) : bool :=
  let n := nat_of_ascii c in
  ((9 <=? n) && (n <=? 13) || (28 <=? n) && (n <=? 32)
   || (n =? 133) || (n =? 160))%nat.

Fixpoint lstrip (s : string) : string :=
  match s with
  | EmptyString => EmptyString
  | String c rest => if isspace c then lstrip rest else s
  end.

Fixpoint rstrip (s : string) : string :=
  match s with
  | EmptyString => EmptyString
  | String c rest =>
      match rstrip rest with
      | EmptyString => if isspace c then EmptyString else String c EmptyString
      | kept => String c kept
      end
  end.

(** [s.strip()] *)
Definition strip (s : string) : string := rstrip (lstrip s).

(** [sep.join(parts)] *)
Definition join (sep : string) (parts : list string) : string :=
  String.concat sep parts.

(** [str(n)] for an int. *)
Definition of_int (n : Z) : string := NilZero.string_of_int (Z.to_int n).

(** [len(xs)] rendered by an f-string. *)
Definition of_len (n : nat) : string := of_int (Z.of_nat n).

Definition first_char (s : string) : option ascii :=
  match s with EmptyString => None | String c _ => Some c end.

Fixpoint last_char (s : string) : option ascii :=
  match s with
  | EmptyString => None
  | String c EmptyString => Some c
  | String _ rest => last_char rest
  end.

Definition is_space_opt (o : option ascii) : bool :=
  match o with Some c => isspace c | None => false end.

End PyStr.

(** ** URLs *)

Module Url.

Definition between (lo hi : nat) (c : ascii) : bool :=
  let n := nat_of_ascii c in ((lo <=? n) && (n <=? hi))%nat.

Definition is_alpha (c : ascii) : bool := between 65 90 c || between 97 122 c.

(** The characters of a scheme after its first: letters, digits, plus,
    minus and dot. *)
Definition is_scheme_char (c : ascii) : bool :=
  is_alpha c || between 48 57 c
  || Ascii.eqb c "+" || Ascii.eqb c "-" || Ascii.eqb c ".".

Fixpoint scheme_ends (s : string) : bool :=
  match s with
  | EmptyString => false
  | String c rest =>
      if Ascii.eqb c ":" then true
      else if is_scheme_char c then scheme_ends rest
      else false
  end.

(** A URL is absolute in syntax when it opens with a scheme and a
    colon. *)
Definition is_absolute (s : string) : bool :=
  match s with
  | EmptyString => false
  | String c rest => is_alpha c && scheme_ends rest
  end.

End Url.

(** ** Exceptions the script can die of *)

Inductive Exception : Type :=
| AttributeError   (* [None.text] *)
| KeyError         (* missing dict key / column / attribute *)
| IndexError       (* list index out of range *)
| ValueError       (* raised inside [urljoin] *)
| TypeError.       (* [",".join] on a non-list cell *)

(** Computations that may raise. *)
Definition Exc (A : Type) : Type := (Exception + A)%type.

Definition ok {A} (a : A) : Exc A := inr a.
Definition raise {A} (e : Exception) : Exc A := inl e.
Definition bindE {A B} (m : Exc A) (k : A -> Exc B) : Exc B :=
  match m with inl e => inl e | inr a => k a end.

Declare Scope exc_scope.
Delimit Scope exc_scope with exc.
Notation "x <- m ;; k" := (bindE m (fun x => k))
  (at level 61, m at next level, right associativity) : exc_scope.

(** ** The parsed document, as bs4 shows it to the script

  The script never walks the tree itself; it only asks a tag for an
  attribute, for its text, and for the elements below it that match a
  CSS selector.  A [Tag] therefore carries its attribute dictionary,
  its text, and the selector engine's answer (in document order) to
  each selector string. *)

Module Bs4.

#[local] Unset Elimination Schemes.
Inductive Tag : Type :=
| MkTag (attrs : list (string * string))
        (text : string)
        (matches : list (string * list Tag)).
#[local] Set Elimination Schemes.

Definition attrs (t : Tag) : list (string * string) :=
  match t with MkTag a _ _ => a end.

(** [tag.text] *)
Definition text (t : Tag) : string :=
  match t with MkTag _ x _ => x end.

Definition matches (t : Tag) : list (string * list Tag) :=
  match t with MkTag _ _ m => m end.

Fixpoint lookup {V} (k : string) (d : list (string * V)) : option V :=
  match d with
  | [] => None
  | (k', v) :: rest => if String.eqb k k' then Some v else lookup k rest
  end.

(** [tag.get(key)] *)
Definition get (key : string) (t : Tag) : option string :=
  lookup key (attrs t).

(** [tag[key]] *)
Definition getitem (key : string) (t : Tag) : Exc string :=
  match get key t with
  | Some v => ok v
  | None => raise KeyError
  end.

(** [tag.select(css)] *)
Definition select (css : string) (t : Tag) : list Tag :=
  match lookup css (matches t) with
  | Some found => found
  | None => []
  end.

(** [tag.select_one(css)] *)
Definition select_one (css : string) (t : Tag) : option Tag :=
  hd_error (select css t).

(** [bool(x)] for [x] a tag or [None]: a tag is always truthy. *)
Definition truthy (o : option Tag) : bool :=
  match o with Some _ => true | None => false end.

(** [x.text], [x["href"]] for [x] a tag or [None]: attribute access on
    [None] raises. *)
Definition deref (o : option Tag) : Exc Tag :=
  match o with
  | Some t => ok t
  | None => raise AttributeError
  end.

(** [xs[i]] *)
Definition index {A} (xs : list A) (i : nat) : Exc A :=
  match nth_error xs i with
  | Some x => ok x
  | None => raise IndexError
  end.

End Bs4.

(** A library call that either returns or raises [ValueError]. *)
Definition resolve {A} (o : option A) : Exc A :=
  match o with
  | Some a => ok a
  | None => raise ValueError
  end.

(** ** The module [scrapper] *)

Module scrapper.

(** *** Records and constants *)

(** One catalog entry: the dict literal of lines 64-71, field by field.
    [entityId] is what [row.get] returned, so it may be [None]. *)
Record CatalogRecord : Type := mkRecord {
  entityId : option string;
  name : string;
  url : string;
  remoteTesting : bool;
  adaptiveIrt : bool;
  testTypes : list string
}.

Definition BASE_URL : string := "https://www.shl.com".
Definition CATALOG_URL : string := BASE_URL ++ "/products/product-catalog/".

(** [f"{CATALOG_URL}?start={start}&type=1"] *)
Definition page_url (start : Z) : string :=
  CATALOG_URL ++ "?start=" ++ PyStr.of_int start ++ "&type=1".

(** *** What the run does to the outside world *)

(** The lines the script prints. *)
Inductive Line : Type :=
| ScrapingPage (start : Z)
| NetworkError (attempt retries : nat)
| SkippingPage
| Saved (count : nat).

Definition render (l : Line) : string :=
  match l with
  | ScrapingPage start => "Scraping page start=" ++ PyStr.of_int start
  | NetworkError attempt retries =>
      "Network error. Retry " ++ PyStr.of_len attempt ++ "/" ++ PyStr.of_len retries
  | SkippingPage => "Skipping page due to repeated failure"
  | Saved count => "Saved " ++ PyStr.of_len count ++ " records to CSV and JSON"
  end.

Inductive Event : Type :=
| Get (url : string)        (* [session.get(url, timeout=30)] *)
| Sleep (seconds : Z)       (* [time.sleep(seconds)] *)
| Print (line : Line).      (* [print(...)] *)

(** What one GET comes back with: an exception of the requests library
    (timeout, connection error, ...) or a response with a status code
    and a body. *)
Inductive Reply : Type :=
| Failed
| Response (status_code : Z) (text : string).

(** [res.raise_for_status()] raises for 4xx and 5xx. *)
Definition raises_for_status (status_code : Z) : bool :=
  (400 <=? status_code) && (status_code <? 600).

(** The state of the network is the number of requests made so far. *)
Definition World : Type := nat.

(** Effectful code: reads and advances the world, emits events. *)
Definition IO (A : Type) : Type := World -> A * list Event * World.

Definition ret {A} (a : A) : IO A := fun w => (a, [], w).

Definition bind {A B} (m : IO A) (k : A -> IO B) : IO B :=
  fun w =>
    let '(a, ev1, w1) := m w in
    let '(b, ev2, w2) := k a w1 in
    (b, ev1 ++ ev2, w2).

Definition emit (e : Event) : IO unit := fun w => (tt, [e], w).

Declare Scope io_scope.
Delimit Scope io_scope with io.
Notation "x <- m ;; k" := (bind m (fun x => k))
  (at level 61, m at next level, right associativity) : io_scope.
Notation "m ;; k" := (bind m (fun _ => k))
  (at level 61, right associativity) : io_scope.

Definition print (l : Line) : IO unit := emit (Print l).
Definition sleep (seconds : Z) : IO unit := emit (Sleep seconds).

Definition value {A} (r : A * list Event * World) : A := fst (fst r).
Definition events {A} (r : A * list Event * World) : list Event := snd (fst r).
Definition world {A} (r : A * list Event * World) : World := snd r.

(** [not html] for [html] a string or [None]. *)
Definition falsy (html : option string) : bool :=
  match html with
  | None => true
  | Some EmptyString => true
  | Some (String _ _) => false
  end.

(** *** The scraper *)

Section Scraper.

(** [server n url]: what comes back when the [n]-th request the session
    ever made is a GET of [url]. *)
Variable server : nat -> string -> Reply.

(** [BeautifulSoup(html, "html.parser")] *)
Variable BeautifulSoup : string -> Bs4.Tag.

(** [urljoin(base, url)]; [None] when it raises [ValueError]. *)
Variable urljoin : string -> string -> option string.

(** [session.get(url, timeout=30)] *)
Definition session_get (url : string) : IO Reply :=
  fun w => (server w url, [Get url], S w).

(** Lines 18-27. *)

(** The [for attempt in range(retries)] loop, [remaining] iterations
    from index [attempt] on. *)
Fixpoint fetch_attempts (url : string) (retries attempt remaining : nat)
  : IO (option string) :=
  match remaining with
  | O => ret None
  | S remaining' =>
      (res <- session_get url ;;
       match res with
       | Response status_code text =>
           if raises_for_status status_code then
             print (NetworkError (attempt + 1) retries) ;;
             sleep 5 ;;
             fetch_attempts url retries (S attempt) remaining'
           else ret (Some text)
       | Failed =>
           print (NetworkError (attempt + 1) retries) ;;
           sleep 5 ;;
           fetch_attempts url retries (S attempt) remaining'
       end)%io
  end.

Definition fetch_page (url : string) (retries : nat) : IO (option string) :=
  fetch_attempts url retries 0 retries.

(** A GET that the fetcher counts as a transport failure. *)
Definition transport_failure (r : Reply) : bool :=
  match r with
  | Failed => true
  | Response status_code _ => raises_for_status status_code
  end.

(** The body a reply carries, if it is a response at all. *)
Definition body_of (r : Reply) : option string :=
  match r with
  | Response _ text => Some text
  | Failed => None
  end.

(** The number of consecutive transport failures [url] meets from
    request number [w] on, counted up to [bound]. *)
Fixpoint failures (url : string) (w : World) (bound : nat) : nat :=
  match bound with
  | O => O
  | S bound' =>
      if transport_failure (server w url) then S (failures url (S w) bound')
      else O
  end.

(** Lines 51-71: one row. *)

Definition extract (row : Bs4.Tag) : Exc CatalogRecord :=
  (let entity_id := Bs4.get "data-entity-id" row in
   let title_tag := Bs4.select_one "td.custom__table-heading__title a" row in
   a <- Bs4.deref title_tag ;;
   let title := PyStr.strip (Bs4.text a) in
   href <- Bs4.getitem "href" a ;;
   link <- resolve (urljoin BASE_URL href) ;;
   let cols := Bs4.select "td.custom__table-heading__general" row in
   col0 <- Bs4.index cols 0 ;;
   let remote_testing := Bs4.truthy (Bs4.select_one ".-yes" col0) in
   col1 <- Bs4.index cols 1 ;;
   let adaptive_irt := Bs4.truthy (Bs4.select_one ".-yes" col1) in
   let test_type_tags := Bs4.select ".product-catalogue__key" row in
   let test_types := map (fun tag => PyStr.strip (Bs4.text tag)) test_type_tags in
   ok {| entityId := entity_id;
         name := title;
         url := link;
         remoteTesting := remote_testing;
         adaptiveIrt := adaptive_irt;
         testTypes := test_types |})%exc.

(** Lines 50-71: [for row in rows: ... results.append({...})]. *)
Fixpoint for_rows (rows : list Bs4.Tag) (results : list CatalogRecord)
  : Exc (list CatalogRecord) :=
  match rows with
  | [] => ok results
  | row :: rest =>
      (record <- extract row ;;
       for_rows rest (results ++ [record]))%exc
  end.

(** Lines 30-80: the walk. *)

(** The variables of the [while True] loop. *)
Record Walk : Type := mkWalk {
  start : Z;
  results : list CatalogRecord
}.

(** The two [break] statements: line 48 and line 75. *)
Inductive Exit : Type :=
| NoRows
| NoNext.

(** How one pass through the loop body ends. *)
Inductive Step : Type :=
| Continue (next : Walk)
| Break (via : Exit) (results : list CatalogRecord)
| Abort (e : Exception).

(** Lines 39-78: what the loop does with the fetcher's answer. *)
Definition handle_page (st : Walk) (html : option string) : IO Step :=
  (match html with
   | Some (String c rest) =>
       let soup := BeautifulSoup (String c rest) in
       let rows := Bs4.select "tr[data-entity-id]" soup in
       match rows with
       | [] => ret (Break NoRows (results st))
       | _ :: _ =>
           match for_rows rows (results st) with
           | inl e => ret (Abort e)
           | inr results' =>
               let next_btn := Bs4.select_one "li.pagination__item.-next a" soup in
               if Bs4.truthy next_btn then
                 sleep 2 ;;
                 ret (Continue (mkWalk (start st + 12) results'))
               else ret (Break NoNext results')
           end
       end
   | _ =>
       print SkippingPage ;;
       ret (Continue (mkWalk (start st + 12) (results st)))
   end)%io.

(** Lines 35-78: one pass through the loop body. *)
Definition iteration (st : Walk) : IO Step :=
  (let url := page_url (start st) in
   print (ScrapingPage (start st)) ;;
   html <- fetch_page url 3 ;;
   handle_page st html)%io.

(** How a run ends. *)
Inductive Final : Type :=
| Returned (via : Exit) (results : list CatalogRecord)
| Raised (e : Exception).

(** [while True], cut after [fuel] passes: [None] means the loop is
    still running. *)
Fixpoint while_true (fuel : nat) (st : Walk) : IO (option Final) :=
  match fuel with
  | O => ret None
  | S fuel' =>
      (step <- iteration st ;;
       match step with
       | Continue next => while_true fuel' next
       | Break via results => ret (Some (Returned via results))
       | Abort e => ret (Some (Raised e))
       end)%io
  end.

Definition scrape_individual_tests (fuel : nat) : IO (option Final) :=
  while_true fuel (mkWalk 0 []).

(** The loop variables and the world at the top of pass number [k]
    (counted from 0), when the loop gets that far. *)
Fixpoint reach (k : nat) (st : Walk) (w : World) : option (Walk * World) :=
  match k with
  | O => Some (st, w)
  | S k' =>
      match iteration st w with
      | (Continue next, _, w') => reach k' next w'
      | _ => None
      end
  end.

(** A record that some row was turned into. *)
Definition extracted (r : CatalogRecord) : Prop :=
  exists row, extract row = inr r.

(** The first [n] offsets of a walk entered at [from]. *)
Definition multiples (from : Z) (n : nat) : list Z :=
  map (fun i => from + 12 * Z.of_nat i) (seq 0 n).

(** What the log says about the run. *)
Definition visited (log : list Event) : list Z :=
  flat_map (fun e => match e with Print (ScrapingPage s) => [s] | _ => [] end) log.

Definition requested (log : list Event) : list string :=
  flat_map (fun e => match e with Get u => [u] | _ => [] end) log.

End Scraper.

(** *** Lines 83-95: writing the two files *)

(** The Python values that reach the writers. *)
#[local] Unset Elimination Schemes.
Inductive PyVal : Type :=
| PyNone
| PyNaN                      (* a cell pandas had nothing to put in *)
| PyBool (b : bool)
| PyString (s : string)
| PyList (items : list PyVal)
| PyDict (items : list (string * PyVal)).
#[local] Set Elimination Schemes.

Definition Dict : Type := list (string * PyVal).

Definition py_opt_str (o : option string) : PyVal :=
  match o with Some s => PyString s | None => PyNone end.

(** The dict literal of lines 64-71. *)
Definition as_dict (r : CatalogRecord) : Dict :=
  [ ("entityId", py_opt_str (entityId r));
    ("name", PyString (name r));
    ("url", PyString (url r));
    ("remoteTesting", PyBool (remoteTesting r));
    ("adaptiveIrt", PyBool (adaptiveIrt r));
    ("testTypes", PyList (map PyString (testTypes r))) ].

(** A pandas frame: column labels and, per row, one cell per column. *)
Record DataFrame : Type := mkFrame {
  columns : list string;
  cells : list (list PyVal)
}.

Definition has_key (k : string) (ks : list string) : bool :=
  existsb (String.eqb k) ks.

Definition add_key (ks : list string) (k : string) : list string :=
  if has_key k ks then ks else ks ++ [k].

(** Column labels of [pd.DataFrame(data)]: the keys of the dicts, in the
    order in which they are first seen. *)
Fixpoint union_keys (seen : list string) (data : list Dict) : list string :=
  match data with
  | [] => seen
  | d :: rest => union_keys (fold_left add_key (map fst d) seen) rest
  end.

Definition cell_of (d : Dict) (col : string) : PyVal :=
  match Bs4.lookup col d with
  | Some v => v
  | None => PyNaN
  end.

(** [pd.DataFrame(data)] for a list of dicts. *)
Definition frame_of (data : list Dict) : DataFrame :=
  let cols := union_keys [] data in
  {| columns := cols;
     cells := map (fun d => map (cell_of d) cols) data |}.

Fixpoint position (k : string) (ks : list string) : option nat :=
  match ks with
  | [] => None
  | k' :: rest =>
      if String.eqb k k' then Some O else option_map S (position k rest)
  end.

(** [df[col]]: the position of the column, or [KeyError]. *)
Definition column (col : string) (df : DataFrame) : Exc nat :=
  match position col (columns df) with
  | Some i => ok i
  | None => raise KeyError
  end.

Fixpoint chars (s : string) : list string :=
  match s with
  | EmptyString => []
  | String c rest => String c EmptyString :: chars rest
  end.

Fixpoint strings_of (items : list PyVal) : Exc (list string) :=
  match items with
  | [] => ok []
  | PyString s :: rest => (tl <- strings_of rest ;; ok (s :: tl))%exc
  | _ :: _ => raise TypeError
  end.

(** [lambda x: ",".join(x)] *)
Definition comma_join (x : PyVal) : Exc PyVal :=
  match x with
  | PyList items => (parts <- strings_of items ;; ok (PyString (PyStr.join "," parts)))%exc
  | PyString s => ok (PyString (PyStr.join "," (chars s)))
  | _ => raise TypeError
  end.

Fixpoint update_nth {A} (i : nat) (f : A -> Exc A) (xs : list A) : Exc (list A) :=
  match xs, i with
  | [], _ => ok []
  | x :: rest, O => (y <- f x ;; ok (y :: rest))%exc
  | x :: rest, S i' => (rest' <- update_nth i' f rest ;; ok (x :: rest'))%exc
  end.

Fixpoint each_row {A} (f : list A -> Exc (list A)) (rows : list (list A))
  : Exc (list (list A)) :=
  match rows with
  | [] => ok []
  | r :: rest => (r' <- f r ;; rest' <- each_row f rest ;; ok (r' :: rest'))%exc
  end.

(** [df[col] = df[col].apply(f)] *)
Definition apply_column (col : string) (f : PyVal -> Exc PyVal) (df : DataFrame)
  : Exc DataFrame :=
  (i <- column col df ;;
   rows <- each_row (update_nth i f) (cells df) ;;
   ok {| columns := columns df; cells := rows |})%exc.

(** What the [__main__] block leaves behind: the two files, as the value
    handed to each writer, and either the summary line or the exception
    that ended the process. *)
Record Outputs : Type := mkOutputs {
  json_file : option PyVal;
  csv_file : option DataFrame;
  finished : Exc Line
}.

(** Lines 86-95, with [data] the list line 84 received. *)
Definition main (data : list CatalogRecord) : Outputs :=
  let dicts := map as_dict data in
  let document := PyList (map PyDict dicts) in
  let df := frame_of dicts in
  match apply_column "testTypes" comma_join df with
  | inl e =>
      {| json_file := Some document; csv_file := None; finished := raise e |}
  | inr df' =>
      {| json_file := Some document;
         csv_file := Some df';
         finished := ok (Saved (length data)) |}
  end.

(** The keys of a record's dict, in the order of the literal. *)
Definition field_names : list string :=
  ["entityId"; "name"; "url"; "remoteTesting"; "adaptiveIrt"; "testTypes"].

(** The row of the table that a record ends up as. *)
Definition table_row (r : CatalogRecord) : list PyVal :=
  [ py_opt_str (entityId r);
    PyString (name r);
    PyString (url r);
    PyBool (remoteTesting r);
    PyBool (adaptiveIrt r);
    PyString (PyStr.join "," (testTypes r)) ].

(** The cell of row [i] under column [col]. *)
Definition cell_at (df : DataFrame) (i : nat) (col : string) : option PyVal :=
  match position col (columns df), nth_error (cells df) i with
  | Some j, Some row => nth_error row j
  | _, _ => None
  end.

(** Line 84 followed by lines 86-95: the whole script, cut after [fuel]
    passes of the loop. *)
Definition script (server : nat -> string -> Reply)
  (BeautifulSoup : string -> Bs4.Tag) (urljoin : string -> string -> option string)
  (fuel : nat) : option Outputs :=
  match value (scrape_individual_tests server BeautifulSoup urljoin fuel O) with
  | Some (Returned _ data) => Some (main data)
  | Some (Raised e) =>
      Some {| json_file := None; csv_file := None; finished := raise e |}
  | None => None
  end.

End scrapper.

Import scrapper.

(** ** Sample catalogs

    Small documents, sites and a resolver to run the definitions on. *)

Module Sample.

Definition anchor (text href : string) : Bs4.Tag :=
  Bs4.MkTag [("href", href)] text [].

Definition marker : Bs4.Tag := Bs4.MkTag [("class", "catalogue__circle -yes")] "" [].

(** A general-info cell, with or without the positive marker. *)
Definition general (yes : bool) : Bs4.Tag :=
  Bs4.MkTag [("class", "custom__table-heading__general")] ""
    (if yes then [(".-yes", [marker])] else []).

Definition key (text : string) : Bs4.Tag :=
  Bs4.MkTag [("class", "product-catalogue__key")] text [].

Definition tr (id : string) (links cols keys : list Bs4.Tag) : Bs4.Tag :=
  Bs4.MkTag [("data-entity-id", id)] ""
    [ ("td.custom__table-heading__title a", links);
      ("td.custom__table-heading__general", cols);
      (".product-catalogue__key", keys) ].

Definition document (rows : list Bs4.Tag) (next : bool) : Bs4.Tag :=
  Bs4.MkTag [] ""
    [ ("tr[data-entity-id]", rows);
      ("li.pagination__item.-next a",
       if next then [anchor "Next" "?start=12&type=1"] else []) ].

Definition row_a : Bs4.Tag :=
  tr "11" [anchor "  Verify G+  " "/products/verify-g/"]
     [general true; general false] [key "A"; key " B "; key "A"].

Definition row_b : Bs4.Tag :=
  tr "12" [anchor "OPQ" "/products/opq/"]
     [general false; general true] [].

(** The title link has no text of its own. *)
Definition row_blank : Bs4.Tag :=
  tr "13" [anchor "   " "/products/blank/"] [general true; general true] [key "K"].

(** Title link and href present, one general-info cell only. *)
Definition row_one_col : Bs4.Tag :=
  tr "14" [anchor "Short" "/products/short/"] [general true] [].

(** Title link present, href that the resolver rejects. *)
Definition row_bad_href : Bs4.Tag :=
  tr "15" [anchor "Odd" "//[x"] [general true; general true] [].

(** A title link with a scheme of its own, behind a tab. *)
Definition mailto_href : string := String (ascii_of_nat 9) "mailto:x".

Definition row_mailto : Bs4.Tag :=
  tr "17" [anchor "Contact" mailto_href] [general true; general true] [].

(** No title link at all. *)
Definition row_no_link : Bs4.Tag :=
  tr "16" [] [general true; general true] [].

(** A parser that knows a handful of markups by name; anything else,
    the empty string included, is a document without rows. *)
Definition parser (html : string) : Bs4.Tag :=
  if String.eqb html "<two rows>" then document [row_a; row_b] false
  else if String.eqb html "<two rows, next>" then document [row_a; row_b] true
  else if String.eqb html "<blank title>" then document [row_blank] false
  else if String.eqb html "<one column>" then document [row_a; row_one_col; row_b] true
  else if String.eqb html "<mailto link>" then document [row_mailto] false
  else document [] false.

(** A resolver that is right on the hrefs above: an absolute path is
    appended to the base, a bracket that is never closed is rejected,
    and the link with a scheme of its own comes back as it stands, tab
    and all. *)
Definition resolver (base href : string) : option string :=
  if String.eqb href "//[x" then None
  else if String.eqb href mailto_href then Some href
  else Some (base ++ href)%string.

Definition serving (first rest : string) : nat -> string -> Reply :=
  fun _ url =>
    if String.eqb url (page_url 0) then Response 200 first
    else Response 200 rest.

(** One page of two rows without a next-page control. *)
Definition one_page_site : nat -> string -> Reply := serving "<two rows>" "<nothing>".

(** Two rows and a next-page control, then a page without rows. *)
Definition two_page_site : nat -> string -> Reply := serving "<two rows, next>" "<nothing>".

Definition blank_title_site : nat -> string -> Reply := serving "<blank title>" "<nothing>".

Definition mailto_site : nat -> string -> Reply := serving "<mailto link>" "<nothing>".

Definition one_column_site : nat -> string -> Reply := serving "<one column>" "<nothing>".

(** The first page already has no rows. *)
Definition empty_site : nat -> string -> Reply := serving "<nothing>" "<nothing>".

(** Every request times out. *)
Definition dead_site : nat -> string -> Reply := fun _ _ => Failed.

(** Every request is answered 200 with an empty body. *)
Definition blank_site : nat -> string -> Reply := fun _ _ => Response 200 "".

(** Two server errors, then the page. *)
Definition flaky_site : nat -> string -> Reply :=
  fun n _ => if (n <? 2)%nat then Response 503 "busy" else Response 200 "<two rows>".

(** Offset 0 is down for three requests; the next page ends the walk. *)
Definition outage_site : nat -> string -> Reply :=
  fun n _ => if (n <? 3)%nat then Failed else Response 200 "<two rows>".

Definition record_a : CatalogRecord :=
  {| entityId := Some "11";
     name := "Verify G+";
     url := "https://www.shl.com/products/verify-g/";
     remoteTesting := true;
     adaptiveIrt := false;
     testTypes := ["A"; "B"; "A"] |}.

Definition record_b : CatalogRecord :=
  {| entityId := Some "12";
     name := "OPQ";
     url := "https://www.shl.com/products/opq/";
     remoteTesting := false;
     adaptiveIrt := true;
     testTypes := [] |}.

End Sample.

(** ** Reading a log *)

Module Log.

(** The seconds slept, added up. *)
Definition slept (log : list Event) : Z :=
  fold_right (fun e total => match e with Sleep s => s + total | _ => total end)
             0 log.

(** The lines printed, in order. *)
Definition printed (log : list Event) : list Line :=
  flat_map (fun e => match e with Print l => [l] | _ => [] end) log.

(** Whether the last request, if any, has been followed by a sleep,
    given whether that was so before the log. *)
Fixpoint rested_after (rested : bool) (log : list Event) : bool :=
  match log with
  | [] => rested
  | Get _ :: rest => rested_after false rest
  | Sleep _ :: rest => rested_after true rest
  | Print _ :: rest => rested_after rested rest
  end.

(** No request follows another request without a sleep in between. *)
Fixpoint paced (rested : bool) (log : list Event) : bool :=
  match log with
  | [] => true
  | Get _ :: rest => rested && paced false rest
  | Sleep _ :: rest => paced true rest
  | Print _ :: rest => paced rested rest
  end.

(** The stretch of log since the last request: whether a network error
    was reported in it, and the seconds slept in it. *)
Definition Gap : Type := (bool * Z)%type.

Definition gap_sleep (seconds : Z) (g : Gap) : Gap := (fst g, snd g + seconds).
Definition gap_error (g : Gap) : Gap := (true, snd g).

(** The stretch that is open at the end of a log, given the one that was
    open before it ([None] as long as nothing has been requested). *)
Fixpoint open_after (open : option Gap) (log : list Event) : option Gap :=
  match log with
  | [] => open
  | Get _ :: rest => open_after (Some (false, 0)) rest
  | Sleep s :: rest => open_after (option_map (gap_sleep s) open) rest
  | Print (NetworkError _ _) :: rest => open_after (option_map gap_error open) rest
  | Print _ :: rest => open_after open rest
  end.

(** The stretches between each request and the next one. *)
Fixpoint gaps_from (open : option Gap) (log : list Event) : list Gap :=
  match log with
  | [] => []
  | Get _ :: rest =>
      match open with
      | Some g => g :: gaps_from (Some (false, 0)) rest
      | None => gaps_from (Some (false, 0)) rest
      end
  | Sleep s :: rest => gaps_from (option_map (gap_sleep s) open) rest
  | Print (NetworkError _ _) :: rest => gaps_from (option_map gap_error open) rest
  | Print _ :: rest => gaps_from open rest
  end.

Definition gaps (log : list Event) : list Gap := gaps_from None log.

(** Five seconds after a request that failed, two after one that did
    not. *)
Definition timed (g : Gap) : Prop := snd g = if fst g then 5 else 2.

(** Nothing requested yet, or a stretch since the last request that has
    had its sleep. *)
Definition ready (open : option Gap) : Prop :=
  match open with
  | None => True
  | Some g => timed g
  end.

End Log.

(** A string of whitespace only. *)
Fixpoint blank (s : string) : bool :=
  match s with
  | EmptyString => true
  | String c rest => PyStr.isspace c && blank rest
  end.

(** [t] is [s] trimmed: [s] is [t] between two runs of whitespace, and
    [t] neither begins nor ends with whitespace. *)
Definition trimmed_of (s t : string) : Prop :=
  (exists lead trail,
      s = (lead ++ t ++ trail)%string /\ blank lead = true /\ blank trail = true)
  /\ PyStr.is_space_opt (PyStr.first_char t) = false
  /\ PyStr.is_space_opt (PyStr.last_char t) = false.

(** A string without a comma in it. *)
Fixpoint comma_free (s : string) : bool :=
  match s with
  | EmptyString => true
  | String c rest => negb (Ascii.eqb c ",") && comma_free rest
  end.

(** A tag that the table keeps apart from its neighbours: not empty and
    without a comma. *)
Definition plain_tag (s : string) : Prop :=
  s <> EmptyString /\ comma_free s = true.

(** * Properties *)

Example extract_row_a :
  extract Sample.resolver Sample.row_a = inr Sample.record_a.
Proof. reflexivity. Qed.

Example one_page_run :
  scrape_individual_tests Sample.one_page_site Sample.parser Sample.resolver 3 O
  = (Some (Returned NoNext [Sample.record_a; Sample.record_b]),
     [Print (ScrapingPage 0);
      Get "https://www.shl.com/products/product-catalog/?start=0&type=1"],
     1%nat).
Proof. reflexivity. Qed.

Example two_page_run :
  scrape_individual_tests Sample.two_page_site Sample.parser Sample.resolver 3 O
  = (Some (Returned NoRows [Sample.record_a; Sample.record_b]),
     [Print (ScrapingPage 0);
      Get "https://www.shl.com/products/product-catalog/?start=0&type=1";
      Sleep 2;
      Print (ScrapingPage 12);
      Get "https://www.shl.com/products/product-catalog/?start=12&type=1"],
     2%nat).
Proof. reflexivity. Qed.

Example outage_run :
  scrape_individual_tests Sample.outage_site Sample.parser Sample.resolver 3 O
  = (Some (Returned NoNext [Sample.record_a; Sample.record_b]),
     [Print (ScrapingPage 0);
      Get "https://www.shl.com/products/product-catalog/?start=0&type=1";
      Print (NetworkError 1 3); Sleep 5;
      Get "https://www.shl.com/products/product-catalog/?start=0&type=1";
      Print (NetworkError 2 3); Sleep 5;
      Get "https://www.shl.com/products/product-catalog/?start=0&type=1";
      Print (NetworkError 3 3); Sleep 5;
      Print SkippingPage;
      Print (ScrapingPage 12);
      Get "https://www.shl.com/products/product-catalog/?start=12&type=1"],
     4%nat).
Proof. reflexivity. Qed.

(** ** Strings *)

Lemma lstrip_first (s : string) :
  PyStr.is_space_opt (PyStr.first_char (PyStr.lstrip s)) = false.
Proof.
  induction s as [|c s IH]; simpl; [reflexivity|].
  destruct (PyStr.isspace c) eqn:Hc; [exact IH|]. simpl. exact Hc.
Qed.

Lemma rstrip_last (s : string) :
  PyStr.is_space_opt (PyStr.last_char (PyStr.rstrip s)) = false.
Proof.
  induction s as [|c s IH]; simpl; [reflexivity|].
  destruct (PyStr.rstrip s) as [|d kept] eqn:Hr.
  - destruct (PyStr.isspace c) eqn:Hc; simpl; [reflexivity|exact Hc].
  - simpl in *. exact IH.
Qed.

Lemma rstrip_first (s : string) :
  PyStr.is_space_opt (PyStr.first_char s) = false ->
  PyStr.is_space_opt (PyStr.first_char (PyStr.rstrip s)) = false.
Proof.
  destruct s as [|c s]; simpl; [reflexivity|]. intros Hc.
  destruct (PyStr.rstrip s); [rewrite Hc|]; simpl; auto.
Qed.

(** [strip] leaves no whitespace at either end. *)
Lemma strip_trimmed (s : string) :
  PyStr.is_space_opt (PyStr.first_char (PyStr.strip s)) = false
  /\ PyStr.is_space_opt (PyStr.last_char (PyStr.strip s)) = false.
Proof.
  unfold PyStr.strip. split.
  - apply rstrip_first, lstrip_first.
  - apply rstrip_last.
Qed.

(** ** Running effectful code *)

Lemma visited_app (l1 l2 : list Event) :
  visited (l1 ++ l2) = visited l1 ++ visited l2.
Proof. apply flat_map_app. Qed.

Lemma requested_app (l1 l2 : list Event) :
  requested (l1 ++ l2) = requested l1 ++ requested l2.
Proof. apply flat_map_app. Qed.

Lemma bind_value {A B} (m : IO A) (k : A -> IO B) (w : World) :
  value (bind m k w) = value (k (value (m w)) (world (m w))).
Proof.
  unfold bind, value, world. destruct (m w) as [[a e1] w1]; simpl.
  destruct (k a w1) as [[b e2] w2]; reflexivity.
Qed.

Lemma bind_events {A B} (m : IO A) (k : A -> IO B) (w : World) :
  events (bind m k w) = events (m w) ++ events (k (value (m w)) (world (m w))).
Proof.
  unfold bind, events, value, world. destruct (m w) as [[a e1] w1]; simpl.
  destruct (k a w1) as [[b e2] w2]; reflexivity.
Qed.

Lemma bind_world {A B} (m : IO A) (k : A -> IO B) (w : World) :
  world (bind m k w) = world (k (value (m w)) (world (m w))).
Proof.
  unfold bind, value, world. destruct (m w) as [[a e1] w1]; simpl.
  destruct (k a w1) as [[b e2] w2]; reflexivity.
Qed.

Section Fetcher.

Variable server : nat -> string -> Reply.

(** Counting up to a larger bound sees the same failures, cut at the
    smaller one. *)
Lemma failures_cut (url : string) (small : nat) :
  forall big w, (small <= big)%nat ->
    failures server url w small = Nat.min (failures server url w big) small.
Proof.
  induction small as [|s IH]; intros big w Hle; simpl; [lia|].
  destruct big as [|b]; [lia|]. simpl.
  destruct (transport_failure (server w url)); [|reflexivity].
  rewrite (IH b (S w)) by lia. lia.
Qed.

(** The request that ends a run of failures short of the bound is a
    success. *)
Lemma failures_stop (url : string) (bound : nat) :
  forall w, (failures server url w bound < bound)%nat ->
    transport_failure (server (w + failures server url w bound) url) = false.
Proof.
  induction bound as [|b IH]; intros w Hlt; simpl in *; [lia|].
  destruct (transport_failure (server w url)) eqn:Hbad.
  - replace (w + S (failures server url (S w) b))%nat
      with (S w + failures server url (S w) b)%nat by lia.
    apply IH. lia.
  - rewrite Nat.add_0_r. exact Hbad.
Qed.

(** What the retry loop does, in terms of the failures it meets. *)
Lemma fetch_attempts_run (url : string) (retries remaining : nat) :
  forall attempt w,
    let f := failures server url w remaining in
    let r := fetch_attempts server url retries attempt remaining w in
    requested (events r) = repeat url (Nat.min (S f) remaining)
    /\ visited (events r) = []
    /\ world r = (w + Nat.min (S f) remaining)%nat
    /\ value r = if (f <? remaining)%nat then body_of (server (w + f)%nat url)
                 else None.
Proof.
  induction remaining as [|n IH]; intros attempt w; cbn zeta.
  - simpl. repeat split; lia.
  - specialize (IH (S attempt) (S w)). cbn zeta in IH.
    destruct IH as (IHreq & IHvis & IHw & IHv).
    cbn [fetch_attempts failures].
    rewrite bind_events, bind_world, bind_value.
    cbn [session_get value events world fst snd].
    unfold transport_failure.
    destruct (server w url) as [|status text] eqn:Hrep.
    + rewrite !bind_events, !bind_world, !bind_value.
      cbn [print sleep emit value events world fst snd].
      rewrite !requested_app, !visited_app. cbn [requested visited flat_map app].
      rewrite IHreq, IHvis, IHw, IHv.
      replace (Nat.min (S (S (failures server url (S w) n))) (S n))
        with (S (Nat.min (S (failures server url (S w) n)) n)) by lia.
      repeat split; try reflexivity; try lia.
      replace (w + S (failures server url (S w) n))%nat
        with (S w + failures server url (S w) n)%nat by lia.
      reflexivity.
    + destruct (raises_for_status status) eqn:Hst.
      * rewrite !bind_events, !bind_world, !bind_value.
        cbn [print sleep emit value events world fst snd].
        rewrite !requested_app, !visited_app. cbn [requested visited flat_map app].
        rewrite IHreq, IHvis, IHw, IHv.
        replace (Nat.min (S (S (failures server url (S w) n))) (S n))
          with (S (Nat.min (S (failures server url (S w) n)) n)) by lia.
        repeat split; try reflexivity; try lia.
        replace (w + S (failures server url (S w) n))%nat
          with (S w + failures server url (S w) n)%nat by lia.
        reflexivity.
      * cbn. rewrite Nat.add_0_r, Hrep. repeat split; try reflexivity; lia.
Qed.

End Fetcher.

(** ** The walk *)

Section Walker.

Variable server : nat -> string -> Reply.
Variable BeautifulSoup : string -> Bs4.Tag.
Variable urljoin : string -> string -> option string.

Local Abbreviation extract := (extract urljoin).
Local Abbreviation for_rows := (for_rows urljoin).
Local Abbreviation handle_page := (handle_page BeautifulSoup urljoin).
Local Abbreviation iteration := (iteration server BeautifulSoup urljoin).
Local Abbreviation while_true := (while_true server BeautifulSoup urljoin).
Local Abbreviation reach := (reach server BeautifulSoup urljoin).
Local Abbreviation fetch_page := (fetch_page server).
Local Abbreviation extracted := (extracted urljoin).

(** The row loop appends one record per row, in row order. *)
Lemma for_rows_ok (rows : list Bs4.Tag) :
  forall acc out,
    for_rows rows acc = inr out ->
    exists recs, out = acc ++ recs
                 /\ Forall2 (fun row r => extract row = inr r) rows recs.
Proof.
  induction rows as [|row rows IH]; intros acc out H; simpl in H.
  - inversion H; subst. exists []. rewrite app_nil_r. split; constructor.
  - unfold bindE in H. destruct (extract row) as [e|r] eqn:Hrow; [discriminate|].
    destruct (IH _ _ H) as (recs & -> & Hall).
    exists (r :: recs). rewrite <- app_assoc. split; [reflexivity|].
    constructor; assumption.
Qed.

Lemma for_rows_all (rows : list Bs4.Tag) :
  forall recs acc,
    Forall2 (fun row r => extract row = inr r) rows recs ->
    for_rows rows acc = inr (acc ++ recs).
Proof.
  induction rows as [|row rows IH]; intros recs acc Hall; inversion Hall; subst; simpl.
  - rewrite app_nil_r. reflexivity.
  - unfold bindE. rewrite H1. rewrite (IH _ _ H3), <- app_assoc. reflexivity.
Qed.

(** The row loop raises exactly what the first failing row raises. *)
Lemma for_rows_raise (rows : list Bs4.Tag) :
  forall acc e,
    for_rows rows acc = inl e <->
    exists before row after,
      rows = before ++ row :: after
      /\ Forall (fun r => exists rec, extract r = inr rec) before
      /\ extract row = inl e.
Proof.
  induction rows as [|row rows IH]; intros acc e; simpl.
  - split; [discriminate|]. intros (before & r & after & Heq & _).
    destruct before; discriminate.
  - unfold bindE. destruct (extract row) as [e'|rec] eqn:Hrow.
    + split.
      * intros H. inversion H; subst. exists [], row, rows. auto.
      * intros (before & r & after & Heq & Hok & Hbad).
        destruct before as [|b before]; simpl in Heq; inversion Heq; subst.
        -- congruence.
        -- inversion Hok; subst. destruct H1 as [rec H1]. congruence.
    + rewrite IH. split.
      * intros (before & r & after & -> & Hok & Hbad).
        exists (row :: before), r, after. repeat split; eauto.
      * intros (before & r & after & Heq & Hok & Hbad).
        destruct before as [|b before]; simpl in Heq; inversion Heq; subst.
        -- congruence.
        -- inversion Hok; subst. exists before, r, after. auto.
Qed.

(** *** After the fetch *)

Lemma handle_page_world (st : Walk) (html : option string) (w : World) :
  world (handle_page st html w) = w.
Proof.
  unfold handle_page. destruct html as [[|c rest]|]; try reflexivity.
  destruct (Bs4.select _ _); [reflexivity|].
  destruct (for_rows _ _); [reflexivity|].
  destruct (Bs4.truthy _); reflexivity.
Qed.

Lemma handle_page_quiet (st : Walk) (html : option string) (w : World) :
  visited (events (handle_page st html w)) = []
  /\ requested (events (handle_page st html w)) = [].
Proof.
  unfold handle_page. destruct html as [[|c rest]|]; try (split; reflexivity).
  destruct (Bs4.select _ _); [split; reflexivity|].
  destruct (for_rows _ _); [split; reflexivity|].
  destruct (Bs4.truthy _); split; reflexivity.
Qed.

Lemma handle_page_skip (st : Walk) (html : option string) (w : World) :
  falsy html = true ->
  value (handle_page st html w)
  = Continue (mkWalk (start st + 12) (results st)).
Proof.
  destruct html as [[|c rest]|]; simpl; intros H; try discriminate; reflexivity.
Qed.

Lemma handle_page_continue (st next : Walk) (html : option string) (w : World) :
  value (handle_page st html w) = Continue next ->
  start next = start st + 12.
Proof.
  unfold handle_page. destruct html as [[|c rest]|];
    try (intros H; inversion H; reflexivity).
  destruct (Bs4.select _ _); [discriminate|].
  destruct (for_rows _ _); [discriminate|].
  destruct (Bs4.truthy _); intros H; inversion H; reflexivity.
Qed.

(** The page handler spelled out on a page that was fetched. *)
Lemma handle_page_fetched (st : Walk) (c : ascii) (rest : string) (w : World) :
  let soup := BeautifulSoup (String c rest) in
  value (handle_page st (Some (String c rest)) w)
  = match Bs4.select "tr[data-entity-id]" soup with
    | [] => Break NoRows (results st)
    | rows =>
        match for_rows rows (results st) with
        | inl e => Abort e
        | inr out =>
            if Bs4.truthy (Bs4.select_one "li.pagination__item.-next a" soup)
            then Continue (mkWalk (start st + 12) out)
            else Break NoNext out
        end
    end.
Proof.
  cbn zeta. unfold handle_page.
  destruct (Bs4.select _ _); [reflexivity|].
  destruct (for_rows _ _); [reflexivity|].
  destruct (Bs4.truthy _); reflexivity.
Qed.

(** *** One pass *)

Lemma iteration_value (st : Walk) (w : World) :
  let r := fetch_page (page_url (start st)) 3 w in
  value (iteration st w) = value (handle_page st (value r) (world r)).
Proof.
  cbn zeta. unfold iteration. cbn zeta.
  rewrite bind_value. cbn [print emit value world fst snd].
  rewrite bind_value. reflexivity.
Qed.

Lemma iteration_events (st : Walk) (w : World) :
  let r := fetch_page (page_url (start st)) 3 w in
  events (iteration st w)
  = Print (ScrapingPage (start st))
    :: events r ++ events (handle_page st (value r) (world r)).
Proof.
  cbn zeta. unfold iteration. cbn zeta.
  rewrite bind_events. cbn [print emit value events world fst snd].
  rewrite bind_events. reflexivity.
Qed.

Lemma iteration_visited (st : Walk) (w : World) :
  visited (events (iteration st w)) = [start st].
Proof.
  rewrite iteration_events. cbn zeta.
  change (Print (ScrapingPage (start st)) :: ?l)
    with ([Print (ScrapingPage (start st))] ++ l).
  rewrite !visited_app.
  destruct (fetch_attempts_run server (page_url (start st)) 3 3 0 w)
    as (_ & Hvis & _).
  unfold fetch_page. rewrite Hvis.
  destruct (handle_page_quiet st
    (value (fetch_attempts server (page_url (start st)) 3 0 3 w))
    (world (fetch_attempts server (page_url (start st)) 3 0 3 w))) as [-> _].
  reflexivity.
Qed.

(** Every request of a pass is for the page of the current offset. *)
Lemma iteration_requested (st : Walk) (w : World) :
  Forall (eq (page_url (start st))) (requested (events (iteration st w))).
Proof.
  rewrite iteration_events. cbn zeta.
  change (Print (ScrapingPage (start st)) :: ?l)
    with ([Print (ScrapingPage (start st))] ++ l).
  rewrite !requested_app.
  destruct (fetch_attempts_run server (page_url (start st)) 3 3 0 w)
    as (Hreq & _).
  unfold fetch_page. rewrite Hreq.
  destruct (handle_page_quiet st
    (value (fetch_attempts server (page_url (start st)) 3 0 3 w))
    (world (fetch_attempts server (page_url (start st)) 3 0 3 w))) as [_ ->].
  cbn [requested flat_map app]. rewrite app_nil_r.
  apply Forall_forall. intros x Hx.
  symmetry. exact (repeat_spec _ _ _ Hx).
Qed.

Lemma iteration_continue (st next : Walk) (w : World) :
  value (iteration st w) = Continue next -> start next = start st + 12.
Proof. rewrite iteration_value. apply handle_page_continue. Qed.

(** *** The loop *)

Lemma while_true_step (fuel : nat) (st : Walk) (w : World) :
  while_true (S fuel) st w
  = match iteration st w with
    | (Continue next, ev, w') =>
        let r := while_true fuel next w' in (value r, ev ++ events r, world r)
    | (Break via out, ev, w') => (Some (Returned via out), ev, w')
    | (Abort e, ev, w') => (Some (Raised e), ev, w')
    end.
Proof.
  cbn [scrapper.while_true]. unfold bind.
  destruct (iteration st w) as [[[next|via out|e] ev] w']; cbn.
  - destruct (while_true fuel next w') as [[a e2] w2]; reflexivity.
  - rewrite app_nil_r; reflexivity.
  - rewrite app_nil_r; reflexivity.
Qed.

Lemma while_true_value (fuel : nat) (st : Walk) (w : World) :
  value (while_true (S fuel) st w)
  = match value (iteration st w) with
    | Continue next => value (while_true fuel next (world (iteration st w)))
    | Break via out => Some (Returned via out)
    | Abort e => Some (Raised e)
    end.
Proof.
  rewrite while_true_step.
  destruct (iteration st w) as [[[next|via out|e] ev] w']; reflexivity.
Qed.

Lemma while_true_events (fuel : nat) (st : Walk) (w : World) :
  events (while_true (S fuel) st w)
  = events (iteration st w)
    ++ match value (iteration st w) with
       | Continue next => events (while_true fuel next (world (iteration st w)))
       | _ => []
       end.
Proof.
  rewrite while_true_step.
  destruct (iteration st w) as [[[next|via out|e] ev] w']; cbn;
    try rewrite app_nil_r; reflexivity.
Qed.

Lemma reach_step (k : nat) (st : Walk) (w : World) :
  reach (S k) st w
  = match value (iteration st w) with
    | Continue next => reach k next (world (iteration st w))
    | _ => None
    end.
Proof.
  cbn [scrapper.reach].
  destruct (iteration st w) as [[[next|via out|e] ev] w']; reflexivity.
Qed.

(** A run that gets to the top of pass [k] goes on from there. *)
Lemma reach_run (k : nat) :
  forall st w st' w' fuel,
    reach k st w = Some (st', w') ->
    value (while_true (k + fuel) st w) = value (while_true fuel st' w').
Proof.
  induction k as [|k IH]; intros st w st' w' fuel H.
  - simpl in H. inversion H; subst. reflexivity.
  - rewrite reach_step in H. cbn [Nat.add]. rewrite while_true_value.
    destruct (value (iteration st w)) as [next|via out|e]; try discriminate.
    apply IH. exact H.
Qed.

(** More fuel does not change the end of a run that has ended. *)
Lemma while_true_more (fuel : nat) :
  forall st w final more,
    value (while_true fuel st w) = Some final ->
    value (while_true (fuel + more) st w) = Some final.
Proof.
  induction fuel as [|fuel IH]; intros st w final more H.
  - discriminate.
  - cbn [Nat.add]. rewrite while_true_value in *.
    destruct (value (iteration st w)) as [next|via out|e]; auto.
Qed.

Lemma reach_start (k : nat) :
  forall st w st' w',
    reach k st w = Some (st', w') ->
    start st' = start st + 12 * Z.of_nat k.
Proof.
  induction k as [|k IH]; intros st w st' w' H.
  - simpl in H. inversion H; subst. simpl. lia.
  - rewrite reach_step in H.
    destruct (value (iteration st w)) as [next|via out|e] eqn:Hit; try discriminate.
    apply iteration_continue in Hit. apply IH in H. lia.
Qed.

Lemma multiples_S (from : Z) (n : nat) :
  multiples from (S n) = from :: multiples (from + 12) n.
Proof.
  unfold multiples. cbn [seq map]. f_equal; [lia|].
  rewrite <- seq_shift, map_map. apply map_ext. intros i. lia.
Qed.

(** The offsets a run prints are those of an arithmetic progression of
    step 12 that begins at the offset the loop was entered with. *)
Lemma while_true_visited (fuel : nat) :
  forall st w,
    exists n, (Nat.min 1 fuel <= n <= fuel)%nat
              /\ visited (events (while_true fuel st w)) = multiples (start st) n.
Proof.
  induction fuel as [|fuel IH]; intros st w.
  - exists O. split; [simpl; lia|reflexivity].
  - rewrite while_true_events, visited_app, iteration_visited.
    destruct (value (iteration st w)) as [next|via out|e] eqn:Hit.
    + destruct (IH next (world (iteration st w))) as (n & Hn & Hvis).
      exists (S n). split; [lia|].
      rewrite Hvis, multiples_S, (iteration_continue _ _ Hit). reflexivity.
    + exists 1%nat. split; [lia|]. rewrite multiples_S. reflexivity.
    + exists 1%nat. split; [lia|]. rewrite multiples_S. reflexivity.
Qed.

(** *** Where records come from *)

(** The extractor succeeds exactly on a row with a title link that has
    an href the resolver accepts and with two general-info cells; the
    record is then built from these. *)
Lemma extract_ok (row : Bs4.Tag) (r : CatalogRecord) :
  extract row = inr r <->
  exists a href link col0 col1 more,
    Bs4.select_one "td.custom__table-heading__title a" row = Some a
    /\ Bs4.get "href" a = Some href
    /\ urljoin BASE_URL href = Some link
    /\ Bs4.select "td.custom__table-heading__general" row = col0 :: col1 :: more
    /\ r = {| entityId := Bs4.get "data-entity-id" row;
              name := PyStr.strip (Bs4.text a);
              url := link;
              remoteTesting := Bs4.truthy (Bs4.select_one ".-yes" col0);
              adaptiveIrt := Bs4.truthy (Bs4.select_one ".-yes" col1);
              testTypes := map (fun tag => PyStr.strip (Bs4.text tag))
                               (Bs4.select ".product-catalogue__key" row) |}.
Proof.
  unfold scrapper.extract, Bs4.deref, Bs4.getitem, resolve, Bs4.index.
  destruct (Bs4.select_one "td.custom__table-heading__title a" row) as [a|];
    cbn [bindE ok raise].
  2:{ split; [discriminate|]. intros (a & ? & ? & ? & ? & ? & H & _). discriminate. }
  destruct (Bs4.get "href" a) as [href|] eqn:Hhref; cbn [bindE ok raise].
  2:{ split; [discriminate|].
      intros (a' & ? & ? & ? & ? & ? & H & H' & _). inversion H; subst. congruence. }
  destruct (urljoin BASE_URL href) as [link|] eqn:Hlink; cbn [bindE ok raise].
  2:{ split; [discriminate|].
      intros (a' & ? & ? & ? & ? & ? & H & H' & H'' & _).
      inversion H; subst. congruence. }
  destruct (Bs4.select "td.custom__table-heading__general" row) as [|col0 [|col1 more]];
    cbn [nth_error bindE ok raise].
  - split; [discriminate|]. intros (? & ? & ? & ? & ? & ? & _ & _ & _ & H & _). discriminate.
  - split; [discriminate|]. intros (? & ? & ? & ? & ? & ? & _ & _ & _ & H & _). discriminate.
  - split.
    + intros H. inversion H; subst. exists a, href, link, col0, col1, more. auto.
    + intros (a' & href' & link' & c0 & c1 & m & H1 & H2 & H3 & H4 & ->).
      inversion H1; subst. inversion H4; subst.
      assert (href' = href) by congruence. subst.
      assert (link' = link) by congruence. subst. reflexivity.
Qed.

Lemma for_rows_extracted (rows : list Bs4.Tag) (acc out : list CatalogRecord) :
  Forall extracted acc ->
  for_rows rows acc = inr out ->
  Forall extracted out.
Proof.
  intros Hacc H. destruct (for_rows_ok _ _ H) as (recs & -> & Hall).
  apply Forall_app. split; [exact Hacc|].
  clear H. induction Hall; constructor; auto. exists x. assumption.
Qed.

Lemma handle_page_extracted (st : Walk) (html : option string) (w : World) :
  Forall extracted (results st) ->
  match value (handle_page st html w) with
  | Continue next => Forall extracted (results next)
  | Break _ out => Forall extracted out
  | Abort _ => True
  end.
Proof.
  intros Hst. destruct html as [[|c rest]|]; try exact Hst.
  rewrite handle_page_fetched. cbn zeta.
  destruct (Bs4.select "tr[data-entity-id]" _) as [|row rows]; [exact Hst|].
  destruct (for_rows (row :: rows) (results st)) as [e|out] eqn:Hrows; [exact I|].
  pose proof (for_rows_extracted _ Hst Hrows) as Hout.
  destruct (Bs4.truthy _); exact Hout.
Qed.

Lemma while_true_extracted (fuel : nat) :
  forall st w via out,
    Forall extracted (results st) ->
    value (while_true fuel st w) = Some (Returned via out) ->
    Forall extracted out.
Proof.
  induction fuel as [|fuel IH]; intros st w via out Hst H; [discriminate|].
  rewrite while_true_value, iteration_value in H. cbn zeta in H.
  pose proof (handle_page_extracted st
    (value (fetch_page (page_url (start st)) 3 w))
    (world (fetch_page (page_url (start st)) 3 w)) Hst) as Hpage.
  destruct (value (handle_page st _ _)) as [next|via' out'|e].
  - eapply IH; eauto.
  - inversion H; subst. exact Hpage.
  - discriminate.
Qed.

End Walker.

(** ** The Page Fetcher *)

(** C3. For every URL the fetcher makes exactly [min (1 + failures) 3]
    requests, all of them for that URL and never more than three; it
    returns the body of the first request that is not a transport
    failure, and after three failures in a row it returns [None].  The
    result is always a value: no exception leaves [fetch_page]. *)
Theorem fetch_page_retry_budget
  (server : nat -> string -> Reply) (url : string) (w : World) (bound : nat) :
  (3 <= bound)%nat ->
  let failed := failures server url w bound in
  let r := fetch_page server url 3 w in
  requested (events r) = repeat url (Nat.min (1 + failed) 3)
  /\ (length (requested (events r)) <= 3)%nat
  /\ ((failed < 3)%nat ->
      exists status_code text,
        server (w + failed)%nat url = Response status_code text
        /\ raises_for_status status_code = false
        /\ value r = Some text)
  /\ ((3 <= failed)%nat -> value r = None).
Proof.
  intros Hbound failed r.
  destruct (fetch_attempts_run server url 3 3 0 w) as (Hreq & _ & _ & Hval).
  cbn zeta in Hreq, Hval.
  pose proof (failures_cut server url w Hbound) as Hcut.
  fold failed in Hcut.
  assert (Hmin : Nat.min (S (failures server url w 3)) 3 = Nat.min (1 + failed) 3)
    by (rewrite Hcut; lia).
  unfold r, fetch_page. rewrite Hreq, Hmin. repeat split.
  - rewrite repeat_length. lia.
  - intros Hlt.
    assert (Heq : failures server url w 3 = failed) by (rewrite Hcut; lia).
    pose proof (@failures_stop server url 3%nat w) as Hstop.
    rewrite Heq in *.
    assert (Hlt' : (failed <? 3)%nat = true) by (apply Nat.ltb_lt; exact Hlt).
    rewrite Hlt' in Hval. specialize (Hstop Hlt).
    destruct (server (w + failed)%nat url) as [|status_code text]; [discriminate|].
    exists status_code, text. auto.
  - intros Hge.
    assert (Heq : failures server url w 3 = 3%nat) by (rewrite Hcut; lia).
    rewrite Heq in Hval. exact Hval.
Qed.

(** Two server errors and then the page: three requests, the third one's
    body is returned. *)
Lemma fetch_page_retry_budget_witness :
  (3 <= 5)%nat
  /\ requested (events (fetch_page Sample.flaky_site (page_url 0) 3 O))
     = [page_url 0; page_url 0; page_url 0]
  /\ value (fetch_page Sample.flaky_site (page_url 0) 3 O) = Some "<two rows>"%string.
Proof.
  destruct (@fetch_page_retry_budget Sample.flaky_site (page_url 0) O 5%nat)
    as (Hreq & _ & Hok & _); [lia|].
  split; [lia|]. split; [exact Hreq|].
  destruct Hok as (status_code & text & Hrep & _ & Hval);
    [vm_compute; lia|].
  rewrite Hval. vm_compute in Hrep. inversion Hrep; subst. reflexivity.
Defined.

(** ** The Catalog Walker *)

(** C4. The offsets a walk visits are 0, 12, 24, ...: the first is 0 and
    each next one is the one before plus 12.  A pass whose fetch failed
    moves on to the next offset with the records it had. *)
Theorem offsets_advance_by_page_size
  (server : nat -> string -> Reply) (BeautifulSoup : string -> Bs4.Tag)
  (urljoin : string -> string -> option string) (fuel : nat) (w : World) :
  (exists n,
      (Nat.min 1 fuel <= n <= fuel)%nat
      /\ visited (events (scrape_individual_tests server BeautifulSoup urljoin fuel w))
         = map (fun i => 12 * Z.of_nat i) (seq 0 n))
  /\ (forall (st : Walk) (w' : World),
         falsy (value (fetch_page server (page_url (start st)) 3 w')) = true ->
         value (iteration server BeautifulSoup urljoin st w')
         = Continue (mkWalk (start st + 12) (results st))).
Proof.
  split.
  - destruct (while_true_visited server BeautifulSoup urljoin fuel (mkWalk 0 []) w)
      as (n & Hn & Hvis).
    exists n. split; [exact Hn|]. exact Hvis.
  - intros st w' Hfail. rewrite iteration_value. cbn zeta.
    apply handle_page_skip. exact Hfail.
Qed.

(** Offset 0 is down for three requests: the walk visits 0 and then 12,
    and the pass at 0 leaves the record list empty. *)
Lemma offsets_advance_by_page_size_witness :
  visited (events (scrape_individual_tests
                     Sample.outage_site Sample.parser Sample.resolver 3 O))
  = [0; 12]
  /\ value (iteration Sample.outage_site Sample.parser Sample.resolver (mkWalk 0 []) O)
     = Continue (mkWalk 12 []).
Proof.
  destruct (offsets_advance_by_page_size
              Sample.outage_site Sample.parser Sample.resolver 3 O) as [_ Hskip].
  split; [reflexivity|].
  apply (Hskip (mkWalk 0 []) O). reflexivity.
Defined.

(** A page that was fetched and has no rows ends the pass, whatever
    else is on it. *)
Lemma iteration_no_rows
  (server : nat -> string -> Reply) (BeautifulSoup : string -> Bs4.Tag)
  (urljoin : string -> string -> option string)
  (st : Walk) (w : World) (c : ascii) (rest : string) :
  value (fetch_page server (page_url (start st)) 3 w) = Some (String c rest) ->
  Bs4.select "tr[data-entity-id]" (BeautifulSoup (String c rest)) = [] ->
  value (iteration server BeautifulSoup urljoin st w) = Break NoRows (results st).
Proof.
  intros Hfetch Hrows. rewrite iteration_value. cbn zeta.
  rewrite Hfetch, handle_page_fetched. cbn zeta. rewrite Hrows. reflexivity.
Qed.

(** A pass that leaves the loop normally does so on a fetched page:
    through the zero-rows check when the page has no rows, and otherwise
    only when the page has no next-page control. *)
Lemma iteration_break
  (server : nat -> string -> Reply) (BeautifulSoup : string -> Bs4.Tag)
  (urljoin : string -> string -> option string)
  (st : Walk) (w : World) (via : Exit) (out : list CatalogRecord) :
  value (iteration server BeautifulSoup urljoin st w) = Break via out ->
  exists c rest,
    value (fetch_page server (page_url (start st)) 3 w) = Some (String c rest)
    /\ ((via = NoRows
         /\ Bs4.select "tr[data-entity-id]" (BeautifulSoup (String c rest)) = []
         /\ out = results st)
        \/ (via = NoNext
            /\ Bs4.select "tr[data-entity-id]" (BeautifulSoup (String c rest)) <> []
            /\ Bs4.select_one "li.pagination__item.-next a"
                 (BeautifulSoup (String c rest)) = None)).
Proof.
  rewrite iteration_value. cbn zeta.
  destruct (value (fetch_page server (page_url (start st)) 3 w))
    as [[|c rest]|] eqn:Hfetch; try discriminate.
  rewrite handle_page_fetched. cbn zeta. intros H.
  exists c, rest. split; [reflexivity|].
  destruct (Bs4.select "tr[data-entity-id]" (BeautifulSoup (String c rest)))
    as [|row rows].
  - inversion H; subst. left. auto.
  - destruct (for_rows urljoin (row :: rows) (results st)); [discriminate|].
    unfold Bs4.truthy in H.
    destruct (Bs4.select_one "li.pagination__item.-next a"
                (BeautifulSoup (String c rest))); [discriminate|].
    inversion H; subst. right. repeat split. discriminate.
Qed.

Lemma while_true_returned
  (server : nat -> string -> Reply) (BeautifulSoup : string -> Bs4.Tag)
  (urljoin : string -> string -> option string) (fuel : nat) :
  forall st w via out,
    value (while_true server BeautifulSoup urljoin fuel st w)
    = Some (Returned via out) ->
    exists k st' w' c rest,
      (k < fuel)%nat
      /\ reach server BeautifulSoup urljoin k st w = Some (st', w')
      /\ value (fetch_page server (page_url (start st')) 3 w')
         = Some (String c rest)
      /\ ((via = NoRows
           /\ Bs4.select "tr[data-entity-id]" (BeautifulSoup (String c rest)) = []
           /\ out = results st')
          \/ (via = NoNext
              /\ Bs4.select "tr[data-entity-id]" (BeautifulSoup (String c rest)) <> []
              /\ Bs4.select_one "li.pagination__item.-next a"
                   (BeautifulSoup (String c rest)) = None)).
Proof.
  induction fuel as [|fuel IH]; intros st w via out H; [discriminate|].
  rewrite while_true_value in H.
  destruct (value (iteration server BeautifulSoup urljoin st w))
    as [next|via' out'|e] eqn:Hit.
  - destruct (IH _ _ _ _ H) as (k & st' & w' & c & rest & Hk & Hreach & Hrest).
    exists (S k), st', w', c, rest. split; [lia|]. split; [|exact Hrest].
    rewrite reach_step, Hit. exact Hreach.
  - inversion H; subst.
    destruct (iteration_break _ _ _ _ _ Hit) as (c & rest & Hfetch & Hcase).
    exists O, st, w, c, rest. split; [lia|]. split; [reflexivity|].
    split; assumption.
  - discriminate.
Qed.



Lemma blank_site_running (fuel : nat) :
  forall st w,
    value (while_true Sample.blank_site Sample.parser Sample.resolver fuel st w) = None.
Proof.
  induction fuel as [|fuel IH]; intros st w; [reflexivity|].
  rewrite while_true_value, iteration_value. cbn zeta.
  change (value (fetch_page Sample.blank_site (page_url (start st)) 3 w))
    with (Some EmptyString).
  rewrite handle_page_skip by reflexivity. apply IH.
Qed.


Lemma failing_from_here_running
  (server : nat -> string -> Reply) (BeautifulSoup : string -> Bs4.Tag)
  (urljoin : string -> string -> option string) (fuel : nat) :
  forall st w,
    (forall j st' w',
        reach server BeautifulSoup urljoin j st w = Some (st', w') ->
        value (fetch_page server (page_url (start st')) 3 w') = None) ->
    value (while_true server BeautifulSoup urljoin fuel st w) = None.
Proof.
  induction fuel as [|fuel IH]; intros st w Hdead; [reflexivity|].
  pose proof (Hdead O st w eq_refl) as Hnow.
  assert (Hstep : value (iteration server BeautifulSoup urljoin st w)
                  = Continue (mkWalk (start st + 12) (results st))).
  { rewrite iteration_value. cbn zeta. rewrite Hnow. reflexivity. }
  rewrite while_true_value, Hstep. apply IH.
  intros j st' w' Hreach. apply (Hdead (S j)).
  rewrite reach_step, Hstep. exact Hreach.
Qed.

(** C10. If from some pass on the fetcher answers [None] at every offset
    the walk comes to, the walk never ends: whatever the fuel, the loop
    is still running. *)
Theorem permanently_failing_source_never_ends
  (server : nat -> string -> Reply) (BeautifulSoup : string -> Bs4.Tag)
  (urljoin : string -> string -> option string)
  (w : World) (k : nat) (st : Walk) (w' : World) :
  reach server BeautifulSoup urljoin k (mkWalk 0 []) w = Some (st, w') ->
  (forall j st' w'',
      reach server BeautifulSoup urljoin j st w' = Some (st', w'') ->
      value (fetch_page server (page_url (start st')) 3 w'') = None) ->
  forall fuel,
    value (scrape_individual_tests server BeautifulSoup urljoin fuel w) = None.
Proof.
  intros Hreach Hdead fuel. unfold scrape_individual_tests.
  destruct (le_lt_dec k fuel) as [Hle|Hlt].
  - replace fuel with (k + (fuel - k))%nat by lia.
    rewrite (reach_run _ _ _ _ _ _ _ Hreach).
    apply failing_from_here_running. exact Hdead.
  - destruct (value (while_true server BeautifulSoup urljoin fuel (mkWalk 0 []) w))
      as [final|] eqn:Hend; [|reflexivity].
    apply (while_true_more _ _ _ _ _ _ (k - fuel)%nat) in Hend.
    replace (fuel + (k - fuel))%nat with (k + 0)%nat in Hend by lia.
    rewrite (reach_run _ _ _ _ _ _ _ Hreach) in Hend. discriminate.
Qed.

(** A site on which every request times out. *)
Lemma permanently_failing_source_never_ends_witness :
  value (scrape_individual_tests Sample.dead_site Sample.parser Sample.resolver 50 O)
  = None.
Proof.
  refine (@permanently_failing_source_never_ends
            Sample.dead_site Sample.parser Sample.resolver
            O O (mkWalk 0 []) O _ _ 50%nat).
  - reflexivity.
  - intros j st' w'' _. reflexivity.
Defined.

(** C2, as amended.  When the page at offset 0 has exactly two rows and
    no next-page control, the walk visits offset 0 only and returns the
    two records; it ends in that first pass, through the missing
    next-page control, and requests no other page. *)
Theorem single_page_ends_at_missing_next_control
  (server : nat -> string -> Reply) (BeautifulSoup : string -> Bs4.Tag)
  (urljoin : string -> string -> option string)
  (w : World) (c : ascii) (rest : string)
  (row1 row2 : Bs4.Tag) (r1 r2 : CatalogRecord) (fuel : nat) :
  value (fetch_page server (page_url 0) 3 w) = Some (String c rest) ->
  Bs4.select "tr[data-entity-id]" (BeautifulSoup (String c rest)) = [row1; row2] ->
  extract urljoin row1 = inr r1 ->
  extract urljoin row2 = inr r2 ->
  Bs4.select_one "li.pagination__item.-next a" (BeautifulSoup (String c rest)) = None ->
  let run := scrape_individual_tests server BeautifulSoup urljoin (S fuel) w in
  value run = Some (Returned NoNext [r1; r2])
  /\ visited (events run) = [0]
  /\ Forall (eq (page_url 0)) (requested (events run)).
Proof.
  intros Hfetch Hrows H1 H2 Hnext run.
  assert (Hstep : value (iteration server BeautifulSoup urljoin (mkWalk 0 []) w)
                  = Break NoNext [r1; r2]).
  { rewrite iteration_value. cbn zeta. cbn [start]. rewrite Hfetch.
    rewrite handle_page_fetched. cbn zeta. rewrite Hrows, Hnext.
    cbn [scrapper.for_rows bindE results app Bs4.truthy]. rewrite H1.
    cbn [scrapper.for_rows bindE results app]. rewrite H2. reflexivity. }
  unfold run, scrape_individual_tests.
  rewrite while_true_value, while_true_events, Hstep, app_nil_r.
  split; [reflexivity|]. split.
  - apply iteration_visited.
  - apply (iteration_requested server BeautifulSoup urljoin (mkWalk 0 []) w).
Qed.

Lemma single_page_ends_at_missing_next_control_witness :
  value (scrape_individual_tests
           Sample.one_page_site Sample.parser Sample.resolver 1 O)
  = Some (Returned NoNext [Sample.record_a; Sample.record_b])
  /\ visited (events (scrape_individual_tests
                        Sample.one_page_site Sample.parser Sample.resolver 1 O))
     = [0]
  /\ Forall (eq (page_url 0))
            (requested (events (scrape_individual_tests
                                  Sample.one_page_site Sample.parser
                                  Sample.resolver 1 O))).
Proof.
  refine (@single_page_ends_at_missing_next_control
            Sample.one_page_site Sample.parser Sample.resolver
            O "<"%char "two rows>" Sample.row_a Sample.row_b
            Sample.record_a Sample.record_b O _ _ _ _ _);
    reflexivity.
Defined.

(** C2, as stated, fails.  On a catalog whose page at offset 0 has two
    rows and no next-page control, no run ends through the zero-rows
    check, and the page at offset 12 is neither visited nor requested. *)
Lemma single_page_walk_stops_before_offset_12 :
  value (fetch_page Sample.one_page_site (page_url 0) 3 O) = Some "<two rows>"%string
  /\ length (Bs4.select "tr[data-entity-id]" (Sample.parser "<two rows>")) = 2%nat
  /\ Bs4.select_one "li.pagination__item.-next a" (Sample.parser "<two rows>") = None
  /\ forall fuel,
       (forall out,
           value (scrape_individual_tests
                    Sample.one_page_site Sample.parser Sample.resolver fuel O)
           <> Some (Returned NoRows out))
       /\ ~ In 12 (visited (events (scrape_individual_tests
                                      Sample.one_page_site Sample.parser
                                      Sample.resolver fuel O)))
       /\ ~ In (page_url 12)
               (requested (events (scrape_individual_tests
                                     Sample.one_page_site Sample.parser
                                     Sample.resolver fuel O))).
Proof.
  split; [reflexivity|]. split; [reflexivity|]. split; [reflexivity|].
  intros [|fuel].
  - repeat split; [discriminate| |]; intros [].
  - change (scrape_individual_tests
              Sample.one_page_site Sample.parser Sample.resolver (S fuel) O)
      with (Some (Returned NoNext [Sample.record_a; Sample.record_b]),
            [Print (ScrapingPage 0); Get (page_url 0)], 1%nat).
    repeat split.
    + discriminate.
    + intros [H|[]]; discriminate.
    + intros [H|[]]. vm_compute in H. discriminate.
Qed.

(** ** The Row Extractor *)

(** Why the extractor raises, and what. *)
Lemma extract_raises
  (urljoin : string -> string -> option string) (row : Bs4.Tag) (e : Exception) :
  extract urljoin row = inl e <->
  (Bs4.select_one "td.custom__table-heading__title a" row = None
   /\ e = AttributeError)
  \/ (exists a,
         Bs4.select_one "td.custom__table-heading__title a" row = Some a
         /\ Bs4.get "href" a = None
         /\ e = KeyError)
  \/ (exists a href,
         Bs4.select_one "td.custom__table-heading__title a" row = Some a
         /\ Bs4.get "href" a = Some href
         /\ urljoin BASE_URL href = None
         /\ e = ValueError)
  \/ (exists a href link,
         Bs4.select_one "td.custom__table-heading__title a" row = Some a
         /\ Bs4.get "href" a = Some href
         /\ urljoin BASE_URL href = Some link
         /\ (length (Bs4.select "td.custom__table-heading__general" row) < 2)%nat
         /\ e = IndexError).
Proof.
  unfold extract, Bs4.deref, Bs4.getitem, resolve, Bs4.index.
  destruct (Bs4.select_one "td.custom__table-heading__title a" row) as [a|];
    cbn [bindE ok raise].
  2:{ split.
      - intros H; inversion H; subst. left. auto.
      - intros [[_ ->]|[(a & H & _)|[(a & h & H & _)|(a & h & l & H & _)]]];
          [reflexivity|discriminate..]. }
  destruct (Bs4.get "href" a) as [href|] eqn:Hhref; cbn [bindE ok raise].
  2:{ split.
      - intros H; inversion H; subst. right; left. exists a. auto.
      - intros [[H _]|[(a' & H & _ & ->)|[(a' & h & H & H' & _)|(a' & h & l & H & H' & _)]]];
          [discriminate|reflexivity|inversion H; subst; congruence..]. }
  destruct (urljoin BASE_URL href) as [link|] eqn:Hlink; cbn [bindE ok raise].
  2:{ split.
      - intros H; inversion H; subst. right; right; left. exists a, href. auto.
      - intros [[H _]|[(a' & H & H' & _)|[(a' & h & H & H' & _ & ->)|(a' & h & l & H & H' & H'' & _)]]];
          [discriminate|inversion H; subst; congruence|reflexivity
          |inversion H; subst; congruence]. }
  destruct (Bs4.select "td.custom__table-heading__general" row) as [|col0 [|col1 more]];
    cbn [nth_error bindE ok raise length].
  - split.
    + intros H; inversion H; subst. right; right; right. exists a, href, link.
      repeat split; auto.
    + intros [[H _]|[(a' & H & H' & _)|[(a' & h & H & H' & H'' & _)|(a' & h & l & _ & _ & _ & _ & ->)]]];
        [discriminate|inversion H; subst; congruence..|reflexivity].
  - split.
    + intros H; inversion H; subst. right; right; right. exists a, href, link.
      repeat split; auto.
    + intros [[H _]|[(a' & H & H' & _)|[(a' & h & H & H' & H'' & _)|(a' & h & l & _ & _ & _ & _ & ->)]]];
        [discriminate|inversion H; subst; congruence..|reflexivity].
  - split; [discriminate|].
    intros [[H _]|[(a' & H & H' & _)|[(a' & h & H & H' & H'' & _)|(a' & h & l & _ & _ & _ & Hlen & _)]]];
      [discriminate|inversion H; subst; congruence..|lia].
Qed.

(** C7. In the record of a row, [remoteTesting] is true exactly when the
    first general-info cell of the row has an element of class [-yes]
    below it, and [adaptiveIrt] exactly when the second one has. *)
Theorem capability_flags_follow_markers
  (urljoin : string -> string -> option string)
  (row : Bs4.Tag) (r : CatalogRecord) :
  extract urljoin row = inr r ->
  exists col0 col1 more,
    Bs4.select "td.custom__table-heading__general" row = col0 :: col1 :: more
    /\ (remoteTesting r = true <-> Bs4.select ".-yes" col0 <> [])
    /\ (adaptiveIrt r = true <-> Bs4.select ".-yes" col1 <> []).
Proof.
  intros H. apply extract_ok in H.
  destruct H as (a & href & link & col0 & col1 & more & _ & _ & _ & Hcols & ->).
  exists col0, col1, more. split; [exact Hcols|]. cbn [remoteTesting adaptiveIrt].
  unfold Bs4.select_one.
  split; (destruct (Bs4.select ".-yes" _); cbn; split; intros; congruence).
Qed.

(** The marker in the first cell and none in the second. *)
Lemma capability_flags_follow_markers_witness :
  exists r,
    extract Sample.resolver Sample.row_a = inr r
    /\ remoteTesting r = true
    /\ adaptiveIrt r = false.
Proof.
  exists Sample.record_a.
  destruct (@capability_flags_follow_markers
              Sample.resolver Sample.row_a Sample.record_a eq_refl)
    as (col0 & col1 & more & Hcols & Hremote & Hadaptive).
  inversion Hcols; subst.
  split; [reflexivity|]. split.
  - apply Hremote. discriminate.
  - destruct (adaptiveIrt Sample.record_a) eqn:Hflag; [|reflexivity].
    exfalso. apply (proj1 Hadaptive); reflexivity.
Defined.

(** The first row that fails ends the pass with its exception. *)
Lemma iteration_abort
  (server : nat -> string -> Reply) (BeautifulSoup : string -> Bs4.Tag)
  (urljoin : string -> string -> option string)
  (st : Walk) (w : World) (c : ascii) (rest : string)
  (before after : list Bs4.Tag) (row : Bs4.Tag) (e : Exception) :
  value (fetch_page server (page_url (start st)) 3 w) = Some (String c rest) ->
  Bs4.select "tr[data-entity-id]" (BeautifulSoup (String c rest))
  = before ++ row :: after ->
  Forall (fun r => exists rec, extract urljoin r = inr rec) before ->
  extract urljoin row = inl e ->
  value (iteration server BeautifulSoup urljoin st w) = Abort e.
Proof.
  intros Hfetch Hrows Hbefore Hrow.
  rewrite iteration_value. cbn zeta. rewrite Hfetch, handle_page_fetched.
  cbn zeta. rewrite Hrows.
  assert (Hraise : for_rows urljoin (before ++ row :: after) (results st) = inl e).
  { apply for_rows_raise. exists before, row, after. auto. }
  destruct (before ++ row :: after) as [|first others] eqn:Hsplit.
  - destruct before; discriminate.
  - rewrite Hraise. reflexivity.
Qed.

(** C6, as amended.  The extractor fails exactly when the title link is
    absent ([AttributeError]), or it has no href ([KeyError]), or the
    resolver rejects the href ([ValueError]), or the row has fewer than
    two general-info cells ([IndexError]).  The failure of a row is
    fatal: it ends the run with that exception and no record list is
    returned.  A page the fetcher gave up on is skipped instead: the
    walk goes on at the next offset with its records. *)
Theorem extraction_failure_is_fatal
  (server : nat -> string -> Reply) (BeautifulSoup : string -> Bs4.Tag)
  (urljoin : string -> string -> option string) :
  (forall row e,
      extract urljoin row = inl e <->
      (Bs4.select_one "td.custom__table-heading__title a" row = None
       /\ e = AttributeError)
      \/ (exists a,
             Bs4.select_one "td.custom__table-heading__title a" row = Some a
             /\ Bs4.get "href" a = None
             /\ e = KeyError)
      \/ (exists a href,
             Bs4.select_one "td.custom__table-heading__title a" row = Some a
             /\ Bs4.get "href" a = Some href
             /\ urljoin BASE_URL href = None
             /\ e = ValueError)
      \/ (exists a href link,
             Bs4.select_one "td.custom__table-heading__title a" row = Some a
             /\ Bs4.get "href" a = Some href
             /\ urljoin BASE_URL href = Some link
             /\ (length (Bs4.select "td.custom__table-heading__general" row) < 2)%nat
             /\ e = IndexError))
  /\ (forall st w c rest before row after e fuel,
         value (fetch_page server (page_url (start st)) 3 w) = Some (String c rest) ->
         Bs4.select "tr[data-entity-id]" (BeautifulSoup (String c rest))
         = before ++ row :: after ->
         Forall (fun r => exists rec, extract urljoin r = inr rec) before ->
         extract urljoin row = inl e ->
         value (while_true server BeautifulSoup urljoin (S fuel) st w)
         = Some (Raised e))
  /\ (forall st w,
         value (fetch_page server (page_url (start st)) 3 w) = None ->
         value (iteration server BeautifulSoup urljoin st w)
         = Continue (mkWalk (start st + 12) (results st))).
Proof.
  split; [|split].
  - intros row e. apply extract_raises.
  - intros st w c rest before row after e fuel Hfetch Hrows Hbefore Hrow.
    rewrite while_true_value.
    rewrite (@iteration_abort server BeautifulSoup urljoin st w c rest
               before after row e Hfetch Hrows Hbefore Hrow).
    reflexivity.
  - intros st w Hfetch. rewrite iteration_value. cbn zeta. rewrite Hfetch.
    reflexivity.
Qed.

(** A page whose second row has a single general-info cell ends the run
    with [IndexError]; an offset that is down is passed over. *)
Lemma extraction_failure_is_fatal_witness :
  value (scrape_individual_tests
           Sample.one_column_site Sample.parser Sample.resolver 1 O)
  = Some (Raised IndexError)
  /\ value (iteration Sample.dead_site Sample.parser Sample.resolver (mkWalk 0 []) O)
     = Continue (mkWalk 12 []).
Proof.
  split.
  - destruct (extraction_failure_is_fatal
                Sample.one_column_site Sample.parser Sample.resolver)
      as (_ & Hfatal & _).
    refine (Hfatal (mkWalk 0 []) O "<"%char "one column>"%string
              [Sample.row_a] Sample.row_one_col [Sample.row_b] IndexError O
              _ _ _ _).
    + reflexivity.
    + reflexivity.
    + constructor; [|constructor]. exists Sample.record_a. reflexivity.
    + reflexivity.
  - destruct (extraction_failure_is_fatal
                Sample.dead_site Sample.parser Sample.resolver)
      as (_ & _ & Hskip).
    apply (Hskip (mkWalk 0 []) O). reflexivity.
Defined.

(** C6, as stated, fails.  A row whose title cell and link are there
    fails all the same when it has one general-info cell only, and a row
    that lacks nothing fails when the resolver rejects its href. *)
Lemma extraction_fails_with_title_link_present :
  (Bs4.select_one "td.custom__table-heading__title a" Sample.row_one_col
   = Some (Sample.anchor "Short" "/products/short/")
   /\ extract Sample.resolver Sample.row_one_col = inl IndexError)
  /\ (Bs4.select_one "td.custom__table-heading__title a" Sample.row_bad_href
      = Some (Sample.anchor "Odd" "//[x")
      /\ length (Bs4.select "td.custom__table-heading__general" Sample.row_bad_href)
         = 2%nat
      /\ extract Sample.resolver Sample.row_bad_href = inl ValueError).
Proof. repeat split. Qed.

(** ** Records of a run *)

Lemma lstrip_split (s : string) :
  exists lead, s = (lead ++ PyStr.lstrip s)%string /\ blank lead = true.
Proof.
  induction s as [|c s IH]; [exists EmptyString; split; reflexivity|].
  cbn [PyStr.lstrip]. destruct (PyStr.isspace c) eqn:Hc.
  - destruct IH as (lead & Heq & Hblank). exists (String c lead). split.
    + cbn. rewrite <- Heq. reflexivity.
    + cbn [blank]. rewrite Hc, Hblank. reflexivity.
  - exists EmptyString. split; reflexivity.
Qed.

Lemma rstrip_split (s : string) :
  exists trail, s = (PyStr.rstrip s ++ trail)%string /\ blank trail = true.
Proof.
  induction s as [|c s IH]; [exists EmptyString; split; reflexivity|].
  destruct IH as (trail & Heq & Hblank). cbn [PyStr.rstrip].
  destruct (PyStr.rstrip s) as [|d kept] eqn:Hr.
  - cbn in Heq. subst trail. destruct (PyStr.isspace c) eqn:Hc.
    + exists (String c s). split; [reflexivity|].
      cbn [blank]. rewrite Hc, Hblank. reflexivity.
    + exists s. split; [reflexivity|exact Hblank].
  - exists trail. split; [|exact Hblank].
    cbn. rewrite Heq at 1. reflexivity.
Qed.

(** What [strip] returns is its argument trimmed. *)
Lemma strip_trims (s : string) : trimmed_of s (PyStr.strip s).
Proof.
  destruct (strip_trimmed s) as [Hfirst Hlast].
  split; [|split; assumption].
  destruct (lstrip_split s) as (lead & Hlead & Hblank1).
  destruct (rstrip_split (PyStr.lstrip s)) as (trail & Htrail & Hblank2).
  exists lead, trail. split; [|split; assumption].
  unfold PyStr.strip. rewrite <- Htrail. exact Hlead.
Qed.




(** ** The Output Writer *)

Lemma strings_of_strings (l : list string) :
  strings_of (map PyString l) = ok l.
Proof.
  induction l as [|s l IH]; [reflexivity|].
  cbn [map strings_of]. rewrite IH. reflexivity.
Qed.

Lemma union_keys_records (data : list CatalogRecord) :
  union_keys field_names (map as_dict data) = field_names.
Proof.
  induction data as [|r data IH]; [reflexivity|]. exact IH.
Qed.

(** The frame of a list of records that is not empty has the six field
    names for columns and the values of each dict for cells. *)
Lemma frame_of_records (r : CatalogRecord) (data : list CatalogRecord) :
  frame_of (map as_dict (r :: data))
  = {| columns := field_names;
       cells := map (fun x => map snd (as_dict x)) (r :: data) |}.
Proof.
  unfold frame_of.
  change (union_keys [] (map as_dict (r :: data)))
    with (union_keys field_names (map as_dict data)).
  rewrite union_keys_records, map_map. reflexivity.
Qed.

Lemma join_test_types (data : list CatalogRecord) :
  each_row (update_nth 5 comma_join) (map (fun x => map snd (as_dict x)) data)
  = ok (map table_row data).
Proof.
  induction data as [|r data IH]; [reflexivity|].
  cbn [map each_row]. rewrite IH.
  cbn [as_dict map snd update_nth bindE comma_join].
  rewrite strings_of_strings. reflexivity.
Qed.

(** What the writer leaves behind when there is at least one record. *)
Lemma main_records (r : CatalogRecord) (data : list CatalogRecord) :
  main (r :: data)
  = {| json_file := Some (PyList (map PyDict (map as_dict (r :: data))));
       csv_file := Some {| columns := field_names;
                           cells := map table_row (r :: data) |};
       finished := ok (Saved (length (r :: data))) |}.
Proof.
  unfold main, apply_column. rewrite frame_of_records.
  cbn [column columns cells position field_names String.eqb Ascii.eqb Bool.eqb
       option_map bindE ok].
  rewrite join_test_types. reflexivity.
Qed.

Lemma cell_at_test_types (data : list CatalogRecord) (i : nat) (r : CatalogRecord) :
  nth_error data i = Some r ->
  cell_at {| columns := field_names; cells := map table_row data |} i "testTypes"
  = Some (PyString (PyStr.join "," (testTypes r))).
Proof.
  intros H. unfold cell_at.
  change (position "testTypes" (columns _)) with (Some 5%nat).
  cbn [cells]. rewrite nth_error_map, H. reflexivity.
Qed.

(** C8. The [testTypes] of a record are the trimmed texts of the
    elements of the row that match the key class, one per element, in
    the order the selector gives them and with repeats kept: each one is
    the text of its element between the whitespace that leads and trails
    it.  In the document the field is the list of these strings; in the
    table the cell is their join with commas. *)
Theorem test_types_in_document_order
  (urljoin : string -> string -> option string)
  (row : Bs4.Tag) (r : CatalogRecord) (data : list CatalogRecord) (i : nat) :
  extract urljoin row = inr r ->
  nth_error data i = Some r ->
  testTypes r
  = map (fun tag => PyStr.strip (Bs4.text tag))
        (Bs4.select ".product-catalogue__key" row)
  /\ Forall2 (fun tag t => trimmed_of (Bs4.text tag) t)
             (Bs4.select ".product-catalogue__key" row) (testTypes r)
  /\ (exists docs d,
         json_file (main data) = Some (PyList docs)
         /\ nth_error docs i = Some (PyDict d)
         /\ Bs4.lookup "testTypes" d = Some (PyList (map PyString (testTypes r))))
  /\ (exists df,
         csv_file (main data) = Some df
         /\ cell_at df i "testTypes"
            = Some (PyString (PyStr.join "," (testTypes r)))).
Proof.
  intros Hrow Hnth. split; [|split; [|split]].
  - apply extract_ok in Hrow.
    destruct Hrow as (a & href & link & col0 & col1 & more & _ & _ & _ & _ & ->).
    reflexivity.
  - apply extract_ok in Hrow.
    destruct Hrow as (a & href & link & col0 & col1 & more & _ & _ & _ & _ & ->).
    cbn [testTypes]. clear.
    generalize (Bs4.select ".product-catalogue__key" row) as tags.
    induction tags as [|tag tags IH]; constructor; [apply strip_trims|exact IH].
  - exists (map PyDict (map as_dict data)), (as_dict r). split; [|split].
    + unfold main. destruct (apply_column _ _ _); reflexivity.
    + rewrite !nth_error_map, Hnth. reflexivity.
    + reflexivity.
  - destruct data as [|r0 data]; [destruct i; discriminate|].
    rewrite main_records. eexists. split; [reflexivity|].
    apply cell_at_test_types. exact Hnth.
Qed.

(** Three tags, the first and the last alike, the second with blanks
    around it. *)
Lemma test_types_in_document_order_witness :
  testTypes Sample.record_a = ["A"; "B"; "A"]%string
  /\ Forall2 (fun tag t => trimmed_of (Bs4.text tag) t)
             [Sample.key "A"; Sample.key " B "; Sample.key "A"]
             ["A"; "B"; "A"]%string
  /\ exists df,
       csv_file (main [Sample.record_a]) = Some df
       /\ cell_at df 0 "testTypes" = Some (PyString "A,B,A").
Proof.
  destruct (@test_types_in_document_order
              Sample.resolver Sample.row_a Sample.record_a [Sample.record_a] O
              eq_refl eq_refl) as (Htypes & Htrim & _ & Hcsv).
  split; [exact Htypes|]. split; [exact Htrim|exact Hcsv].
Defined.

(** C9.  A catalog whose first page has no rows makes the walk return
    the empty list; the writer then writes the document, fails on the
    column that is not there and writes no table: the script ends with
    [KeyError]. *)
Theorem empty_result_set_has_no_table :
  value (scrape_individual_tests Sample.empty_site Sample.parser Sample.resolver 1 O)
  = Some (Returned NoRows [])
  /\ main []
     = {| json_file := Some (PyList []);
          csv_file := None;
          finished := raise KeyError |}
  /\ script Sample.empty_site Sample.parser Sample.resolver 1
     = Some {| json_file := Some (PyList []);
               csv_file := None;
               finished := raise KeyError |}.
Proof. repeat split. Qed.

(** * More of the script *)

(** ** The retry loop, for any budget *)

Lemma failures_le (server : nat -> string -> Reply) (url : string) (bound : nat) :
  forall w, (failures server url w bound <= bound)%nat.
Proof.
  induction bound as [|b IH]; intros w; simpl; [lia|].
  destruct (transport_failure (server w url)); [specialize (IH (S w))|]; lia.
Qed.

Lemma printed_app (l1 l2 : list Event) :
  Log.printed (l1 ++ l2) = Log.printed l1 ++ Log.printed l2.
Proof. apply flat_map_app. Qed.

Lemma slept_app (l1 l2 : list Event) :
  Log.slept (l1 ++ l2) = Log.slept l1 + Log.slept l2.
Proof.
  induction l1 as [|e l1 IH]; [reflexivity|].
  cbn [app Log.slept fold_right]. fold (Log.slept (l1 ++ l2)). fold (Log.slept l1).
  rewrite IH. destruct e; lia.
Qed.

(** The lines and the sleeps of the retry loop: one numbered line and
    five seconds per failure met. *)
Lemma fetch_attempts_backoff
  (server : nat -> string -> Reply) (url : string) (retries remaining : nat) :
  forall attempt w,
    let f := failures server url w remaining in
    let r := fetch_attempts server url retries attempt remaining w in
    Log.printed (events r)
    = map (fun k => NetworkError (attempt + k + 1) retries) (seq 0 f)
    /\ Log.slept (events r) = 5 * Z.of_nat f.
Proof.
  induction remaining as [|n IH]; intros attempt w; cbn zeta.
  - split; reflexivity.
  - specialize (IH (S attempt) (S w)). cbn zeta in IH. destruct IH as [IHp IHs].
    cbn [fetch_attempts failures].
    rewrite bind_events. cbn [session_get value events world fst snd].
    unfold transport_failure.
    assert (Hfail :
      let r := (bind (print (NetworkError (attempt + 1) retries))
                  (fun _ => bind (sleep 5)
                     (fun _ => fetch_attempts server url retries (S attempt) n)))
               (S w) in
      Log.printed ([Get url] ++ events r)
      = map (fun k => NetworkError (attempt + k + 1) retries)
            (seq 0 (S (failures server url (S w) n)))
      /\ Log.slept ([Get url] ++ events r)
         = 5 * Z.of_nat (S (failures server url (S w) n))).
    { cbn zeta. rewrite !bind_events.
      cbn [print sleep emit value events world fst snd].
      rewrite !printed_app, !slept_app, IHp, IHs.
      cbn [Log.printed Log.slept flat_map fold_right app seq map].
      split.
      - f_equal; [f_equal; lia|].
        rewrite <- seq_shift, map_map. apply map_ext. intros k. f_equal. lia.
      - lia. }
    destruct (server w url) as [|status text].
    + exact Hfail.
    + destruct (raises_for_status status); [exact Hfail|]. split; reflexivity.
Qed.

(** X1. For any retry budget, the fetcher makes [min (1 + failures)
    retries] requests and gives up, answering [None], exactly when all
    [retries] attempts are transport failures; with a budget of 0 it
    asks for nothing and gives up at once. *)
Theorem fetch_page_gives_up_iff_all_attempts_fail
  (server : nat -> string -> Reply) (url : string) (retries : nat) (w : World) :
  requested (events (fetch_page server url retries w))
  = repeat url (Nat.min (1 + failures server url w retries) retries)
  /\ (value (fetch_page server url retries w) = None
      <-> failures server url w retries = retries).
Proof.
  destruct (fetch_attempts_run server url retries retries 0 w)
    as (Hreq & _ & _ & Hval).
  cbn zeta in Hreq, Hval. unfold fetch_page.
  pose proof (failures_le server url retries w) as Hle.
  split; [exact Hreq|].
  rewrite Hval.
  destruct (Nat.ltb_spec (failures server url w retries) retries) as [Hlt|Hge].
  - pose proof (@failures_stop server url retries w Hlt) as Hstop.
    destruct (server (w + failures server url w retries)%nat url)
      as [|status text]; [discriminate|].
    cbn [body_of]. split; [discriminate|lia].
  - split; [lia|reflexivity].
Qed.

(** X2. Every failed attempt prints one line, numbered from 1 and naming
    the budget, and is followed by a sleep of five seconds, the last
    attempt included: the fetcher has slept five seconds per failure
    when it returns. *)
Theorem fetch_page_backs_off_after_every_failure
  (server : nat -> string -> Reply) (url : string) (retries : nat) (w : World) :
  Log.printed (events (fetch_page server url retries w))
  = map (fun k => NetworkError (k + 1) retries)
        (seq 0 (failures server url w retries))
  /\ Log.slept (events (fetch_page server url retries w))
     = 5 * Z.of_nat (failures server url w retries).
Proof.
  exact (fetch_attempts_backoff server url retries retries 0 w).
Qed.

(** ** What the walk asks the site for *)

Lemma iteration_requests
  (server : nat -> string -> Reply) (BeautifulSoup : string -> Bs4.Tag)
  (urljoin : string -> string -> option string) (st : Walk) (w : World) :
  requested (events (iteration server BeautifulSoup urljoin st w))
  = repeat (page_url (start st))
           (Nat.min (S (failures server (page_url (start st)) w 3)) 3).
Proof.
  rewrite iteration_events. cbn zeta.
  change (Print (ScrapingPage (start st)) :: ?l)
    with ([Print (ScrapingPage (start st))] ++ l).
  rewrite !requested_app.
  destruct (fetch_attempts_run server (page_url (start st)) 3 3 0 w)
    as (Hreq & _).
  unfold fetch_page. rewrite Hreq.
  destruct (handle_page_quiet BeautifulSoup urljoin st
    (value (fetch_attempts server (page_url (start st)) 3 0 3 w))
    (world (fetch_attempts server (page_url (start st)) 3 0 3 w))) as [_ ->].
  cbn [requested flat_map app]. apply app_nil_r.
Qed.

Lemma while_true_requests
  (server : nat -> string -> Reply) (BeautifulSoup : string -> Bs4.Tag)
  (urljoin : string -> string -> option string) (fuel : nat) :
  forall st w,
    let log := events (while_true server BeautifulSoup urljoin fuel st w) in
    Forall (fun u => exists i, u = page_url (start st + 12 * Z.of_nat i))
           (requested log)
    /\ (length (visited log) <= length (requested log) <= 3 * length (visited log))%nat.
Proof.
  induction fuel as [|fuel IH]; intros st w; cbn zeta.
  - split; [constructor|simpl; lia].
  - rewrite while_true_events, requested_app, visited_app, !length_app.
    rewrite iteration_visited, iteration_requests, repeat_length.
    cbn [length].
    assert (Hhere : Forall (fun u => exists i, u = page_url (start st + 12 * Z.of_nat i))
                      (repeat (page_url (start st))
                         (Nat.min (S (failures server (page_url (start st)) w 3)) 3))).
    { apply Forall_forall. intros u Hu. apply repeat_spec in Hu. subst u.
      exists O. f_equal. lia. }
    destruct (value (iteration server BeautifulSoup urljoin st w))
      as [next|via out|e] eqn:Hit.
    + specialize (IH next (world (iteration server BeautifulSoup urljoin st w))).
      cbn zeta in IH. destruct IH as [IHall IHlen].
      split; [|lia].
      apply Forall_app. split; [exact Hhere|].
      rewrite (iteration_continue _ _ _ _ _ Hit) in IHall.
      eapply Forall_impl; [|exact IHall].
      intros u [i ->]. exists (S i). f_equal. lia.
    + rewrite app_nil_r. cbn [requested visited flat_map length].
      split; [exact Hhere|lia].
    + rewrite app_nil_r. cbn [requested visited flat_map length].
      split; [exact Hhere|lia].
Qed.

(** ** Page URLs *)

Lemma to_int_proper (n : Z) :
  Z.to_int n <> Decimal.Pos Decimal.Nil /\ Z.to_int n <> Decimal.Neg Decimal.Nil.
Proof.
  destruct n as [|p|p]; cbn [Z.to_int]; split; try discriminate;
    intros H; inversion H as [Hnil]; exact (Unsigned.to_uint_nonnil p Hnil).
Qed.

Lemma of_int_injective (a b : Z) : PyStr.of_int a = PyStr.of_int b -> a = b.
Proof.
  unfold PyStr.of_int. intros H.
  apply (f_equal NilZero.int_of_string) in H.
  destruct (to_int_proper a) as [Ha1 Ha2]. destruct (to_int_proper b) as [Hb1 Hb2].
  rewrite !NilZero.isi in H by assumption.
  inversion H as [Heq]. apply DecimalZ.to_int_inj. exact Heq.
Qed.

Lemma append_length (s t : string) :
  String.length (s ++ t) = (String.length s + String.length t)%nat.
Proof. induction s as [|c s IH]; simpl; [reflexivity|]. rewrite IH. reflexivity. Qed.

Lemma append_cancel_l (s a b : string) : (s ++ a = s ++ b)%string -> a = b.
Proof.
  induction s as [|c s IH]; simpl; intros H; [exact H|].
  inversion H. auto.
Qed.

Lemma append_cancel_r (t : string) :
  forall a b : string, (a ++ t = b ++ t)%string -> a = b.
Proof.
  induction a as [|c a IH]; intros [|d b] H; simpl in H.
  - reflexivity.
  - apply (f_equal String.length) in H. simpl in H. rewrite append_length in H. lia.
  - apply (f_equal String.length) in H. simpl in H. rewrite append_length in H. lia.
  - inversion H. f_equal. apply IH. assumption.
Qed.

(** Different offsets give different page URLs. *)
Lemma page_url_injective (a b : Z) : page_url a = page_url b -> a = b.
Proof.
  unfold page_url. intros H.
  apply append_cancel_l in H. apply append_cancel_l in H.
  apply append_cancel_r in H. apply of_int_injective. exact H.
Qed.

(** What each page visited costs in requests. *)
Lemma while_true_page_cost
  (server : nat -> string -> Reply) (BeautifulSoup : string -> Bs4.Tag)
  (urljoin : string -> string -> option string) (fuel : nat) :
  forall st w s,
    In s (visited (events (while_true server BeautifulSoup urljoin fuel st w))) ->
    (1 <= count_occ string_dec
            (requested (events (while_true server BeautifulSoup urljoin fuel st w)))
            (page_url s)
     <= 3)%nat.
Proof.
  induction fuel as [|fuel IH]; intros st w s Hin; [destruct Hin|].
  rewrite while_true_events, visited_app, iteration_visited in Hin.
  rewrite while_true_events, requested_app, count_occ_app, iteration_requests.
  destruct (value (iteration server BeautifulSoup urljoin st w))
    as [next|via out|e] eqn:Hit.
  - pose proof (iteration_continue _ _ _ _ _ Hit) as Hnext.
    destruct (while_true_visited server BeautifulSoup urljoin fuel next
                (world (iteration server BeautifulSoup urljoin st w)))
      as (n & _ & Hvis).
    destruct (while_true_requests server BeautifulSoup urljoin fuel next
                (world (iteration server BeautifulSoup urljoin st w)))
      as [Hreq _].
    destruct Hin as [<-|Hin].
    + rewrite count_occ_repeat_eq by reflexivity.
      assert (Hnone : count_occ string_dec
                (requested (events (while_true server BeautifulSoup urljoin fuel next
                   (world (iteration server BeautifulSoup urljoin st w)))))
                (page_url (start st)) = O).
      { apply count_occ_not_In. intros Hold.
        rewrite Forall_forall in Hreq. destruct (Hreq _ Hold) as [i Hi].
        apply page_url_injective in Hi. lia. }
      rewrite Hnone. lia.
    + assert (Hother : s <> start st).
      { rewrite Hvis in Hin. unfold multiples in Hin. apply in_map_iff in Hin.
        destruct Hin as (i & <- & _). lia. }
      rewrite count_occ_repeat_neq
        by (intros Heq; apply page_url_injective in Heq; congruence).
      cbn [Nat.add]. apply IH. exact Hin.
  - destruct Hin as [<-|[]].
    rewrite count_occ_repeat_eq by reflexivity.
    cbn [requested flat_map count_occ]. lia.
  - destruct Hin as [<-|[]].
    rewrite count_occ_repeat_eq by reflexivity.
    cbn [requested flat_map count_occ]. lia.
Qed.

(** X3. Whatever the site answers, the walk only ever asks for catalog
    pages at offsets 0, 12, 24, ...: no other URL is requested (the
    hrefs found in the markup are never followed), and each page visited
    costs at least one and at most three requests: the URL of every
    offset visited occurs once, twice or three times among the
    requests. *)
Theorem walk_requests_only_catalog_pages
  (server : nat -> string -> Reply) (BeautifulSoup : string -> Bs4.Tag)
  (urljoin : string -> string -> option string) (fuel : nat) (w : World) :
  Forall (fun u => exists i, u = page_url (12 * Z.of_nat i))
         (requested (events (scrape_individual_tests
                               server BeautifulSoup urljoin fuel w)))
  /\ (length (visited (events (scrape_individual_tests
                                 server BeautifulSoup urljoin fuel w)))
      <= length (requested (events (scrape_individual_tests
                                      server BeautifulSoup urljoin fuel w)))
      <= 3 * length (visited (events (scrape_individual_tests
                                        server BeautifulSoup urljoin fuel w))))%nat
  /\ Forall (fun s =>
               (1 <= count_occ string_dec
                       (requested (events (scrape_individual_tests
                                             server BeautifulSoup urljoin fuel w)))
                       (page_url s)
                <= 3)%nat)
            (visited (events (scrape_individual_tests
                                server BeautifulSoup urljoin fuel w))).
Proof.
  destruct (while_true_requests server BeautifulSoup urljoin fuel (mkWalk 0 []) w)
    as [Hall Hlen].
  split; [|split; [exact Hlen|]].
  - eapply Forall_impl; [|exact Hall]. intros u [i ->]. exists i. reflexivity.
  - apply Forall_forall. intros s Hs.
    apply (while_true_page_cost server BeautifulSoup urljoin fuel (mkWalk 0 []) w s Hs).
Qed.

(** X4. Once the walk is at the top of pass [k], the pages of the
    offsets it has left behind, fetched or skipped, are never asked for
    again: nothing it requests from there on is the page of an offset
    [12 * j] with [j < k]. *)
Theorem pages_left_behind_are_not_requested_again
  (server : nat -> string -> Reply) (BeautifulSoup : string -> Bs4.Tag)
  (urljoin : string -> string -> option string)
  (w : World) (k : nat) (st : Walk) (w' : World) (fuel j : nat) :
  reach server BeautifulSoup urljoin k (mkWalk 0 []) w = Some (st, w') ->
  (j < k)%nat ->
  ~ In (page_url (12 * Z.of_nat j))
       (requested (events (while_true server BeautifulSoup urljoin fuel st w'))).
Proof.
  intros Hreach Hlt Hin.
  destruct (while_true_requests server BeautifulSoup urljoin fuel st w') as [Hall _].
  rewrite Forall_forall in Hall. destruct (Hall _ Hin) as [i Hi].
  apply page_url_injective in Hi.
  apply reach_start in Hreach. cbn [start] in Hreach. lia.
Qed.

(** Offset 0 is down; the walk goes on at 12 and does not come back. *)
Lemma pages_left_behind_are_not_requested_again_witness :
  ~ In (page_url 0)
       (requested (events (while_true Sample.outage_site Sample.parser
                             Sample.resolver 5 (mkWalk 12 []) 3%nat))).
Proof.
  refine (@pages_left_behind_are_not_requested_again
            Sample.outage_site Sample.parser Sample.resolver
            O 1%nat (mkWalk 12 []) 3%nat 5%nat O _ _).
  - reflexivity.
  - lia.
Defined.

(** ** What a pass adds to the records *)

(** A pass over a page whose rows all extract. *)
Lemma iteration_rows
  (server : nat -> string -> Reply) (BeautifulSoup : string -> Bs4.Tag)
  (urljoin : string -> string -> option string)
  (st : Walk) (w : World) (c : ascii) (rest : string)
  (rows : list Bs4.Tag) (recs : list CatalogRecord) :
  value (fetch_page server (page_url (start st)) 3 w) = Some (String c rest) ->
  Bs4.select "tr[data-entity-id]" (BeautifulSoup (String c rest)) = rows ->
  rows <> [] ->
  Forall2 (fun row r => extract urljoin row = inr r) rows recs ->
  value (iteration server BeautifulSoup urljoin st w)
  = if Bs4.truthy (Bs4.select_one "li.pagination__item.-next a"
                     (BeautifulSoup (String c rest)))
    then Continue (mkWalk (start st + 12) (results st ++ recs))
    else Break NoNext (results st ++ recs).
Proof.
  intros Hfetch Hrows Hsome Hall.
  rewrite iteration_value. cbn zeta. rewrite Hfetch, handle_page_fetched.
  cbn zeta. rewrite Hrows.
  pose proof (for_rows_all urljoin (results st) Hall) as Hfor.
  destruct rows as [|row more]; [congruence|].
  rewrite Hfor. reflexivity.
Qed.

Lemma handle_page_grows
  (BeautifulSoup : string -> Bs4.Tag) (urljoin : string -> string -> option string)
  (st : Walk) (html : option string) (w : World) :
  match value (handle_page BeautifulSoup urljoin st html w) with
  | Continue next => exists more, results next = results st ++ more
  | Break _ out => exists more, out = results st ++ more
  | Abort _ => True
  end.
Proof.
  assert (Hsame : exists more, results st = results st ++ more)
    by (exists []; rewrite app_nil_r; reflexivity).
  destruct html as [[|c rest]|]; try exact Hsame.
  rewrite handle_page_fetched. cbn zeta.
  destruct (Bs4.select "tr[data-entity-id]" _) as [|row rows]; [exact Hsame|].
  destruct (for_rows urljoin (row :: rows) (results st)) as [e|out] eqn:Hrows;
    [exact I|].
  destruct (for_rows_ok _ _ _ Hrows) as (recs & -> & _).
  destruct (Bs4.truthy _); exists recs; reflexivity.
Qed.

Lemma while_true_grows
  (server : nat -> string -> Reply) (BeautifulSoup : string -> Bs4.Tag)
  (urljoin : string -> string -> option string) (fuel : nat) :
  forall st w via out,
    value (while_true server BeautifulSoup urljoin fuel st w)
    = Some (Returned via out) ->
    exists more, out = results st ++ more.
Proof.
  induction fuel as [|fuel IH]; intros st w via out H; [discriminate|].
  rewrite while_true_value, iteration_value in H. cbn zeta in H.
  pose proof (handle_page_grows BeautifulSoup urljoin st
    (value (fetch_page server (page_url (start st)) 3 w))
    (world (fetch_page server (page_url (start st)) 3 w))) as Hpage.
  destruct (value (handle_page BeautifulSoup urljoin st _ _)) as [next|via' out'|e].
  - destruct Hpage as [more1 Hnext]. destruct (IH _ _ _ _ H) as [more2 ->].
    exists (more1 ++ more2). rewrite Hnext, app_assoc. reflexivity.
  - inversion H; subst. exact Hpage.
  - discriminate.
Qed.

(** X5. The record list only grows: what the walk holds at the top of
    any pass is a prefix of what it returns in the end.  No page, failed
    or not, takes a record away or reorders those already there. *)
Theorem returned_records_extend_those_gathered
  (server : nat -> string -> Reply) (BeautifulSoup : string -> Bs4.Tag)
  (urljoin : string -> string -> option string)
  (w : World) (k : nat) (st : Walk) (w' : World)
  (fuel : nat) (via : Exit) (out : list CatalogRecord) :
  reach server BeautifulSoup urljoin k (mkWalk 0 []) w = Some (st, w') ->
  value (scrape_individual_tests server BeautifulSoup urljoin fuel w)
  = Some (Returned via out) ->
  exists more, out = results st ++ more.
Proof.
  intros Hreach Hrun. unfold scrape_individual_tests in Hrun.
  destruct (le_lt_dec k fuel) as [Hle|Hlt].
  - replace fuel with (k + (fuel - k))%nat in Hrun by lia.
    rewrite (reach_run _ _ _ _ _ _ _ Hreach) in Hrun.
    eapply while_true_grows. exact Hrun.
  - apply (while_true_more _ _ _ _ _ _ (k - fuel)%nat) in Hrun.
    replace (fuel + (k - fuel))%nat with (k + 0)%nat in Hrun by lia.
    rewrite (reach_run _ _ _ _ _ _ _ Hreach) in Hrun. discriminate.
Qed.

(** After the first page of the two-page catalog. *)
Lemma returned_records_extend_those_gathered_witness :
  exists more,
    [Sample.record_a; Sample.record_b]
    = [Sample.record_a; Sample.record_b] ++ more.
Proof.
  refine (@returned_records_extend_those_gathered
            Sample.two_page_site Sample.parser Sample.resolver
            O 1%nat (mkWalk 12 [Sample.record_a; Sample.record_b]) 1%nat
            2%nat NoRows [Sample.record_a; Sample.record_b] _ _);
    reflexivity.
Defined.

(** X6. A pass over a fetched page whose rows all extract adds exactly
    one record per row, in row order, after the records already held;
    with a next-page control the walk goes on at the next offset, and
    without one it returns that list. *)
Theorem page_adds_one_record_per_row
  (server : nat -> string -> Reply) (BeautifulSoup : string -> Bs4.Tag)
  (urljoin : string -> string -> option string)
  (st : Walk) (w : World) (c : ascii) (rest : string)
  (rows : list Bs4.Tag) (recs : list CatalogRecord) :
  value (fetch_page server (page_url (start st)) 3 w) = Some (String c rest) ->
  Bs4.select "tr[data-entity-id]" (BeautifulSoup (String c rest)) = rows ->
  rows <> [] ->
  Forall2 (fun row r => extract urljoin row = inr r) rows recs ->
  length recs = length rows
  /\ value (iteration server BeautifulSoup urljoin st w)
     = if Bs4.truthy (Bs4.select_one "li.pagination__item.-next a"
                        (BeautifulSoup (String c rest)))
       then Continue (mkWalk (start st + 12) (results st ++ recs))
       else Break NoNext (results st ++ recs).
Proof.
  intros Hfetch Hrows Hsome Hall. split.
  - symmetry. eapply Forall2_length. exact Hall.
  - eapply iteration_rows; eassumption.
Qed.

Lemma page_adds_one_record_per_row_witness :
  value (iteration Sample.two_page_site Sample.parser Sample.resolver
           (mkWalk 0 []) O)
  = Continue (mkWalk 12 [Sample.record_a; Sample.record_b]).
Proof.
  refine (proj2 (@page_adds_one_record_per_row
                   Sample.two_page_site Sample.parser Sample.resolver
                   (mkWalk 0 []) O "<"%char "two rows, next>"
                   [Sample.row_a; Sample.row_b]
                   [Sample.record_a; Sample.record_b] _ _ _ _)).
  - reflexivity.
  - reflexivity.
  - discriminate.
  - repeat constructor.
Defined.

(** X7. The walk ends at the first fetched page that has rows and no
    next-page control, whichever pass that is: it returns the records
    gathered before together with those of that page, and the pages
    after it are never looked at. *)
Theorem walk_ends_on_page_without_next_control
  (server : nat -> string -> Reply) (BeautifulSoup : string -> Bs4.Tag)
  (urljoin : string -> string -> option string)
  (w : World) (k : nat) (st : Walk) (w' : World) (c : ascii) (rest : string)
  (rows : list Bs4.Tag) (recs : list CatalogRecord) (fuel : nat) :
  reach server BeautifulSoup urljoin k (mkWalk 0 []) w = Some (st, w') ->
  value (fetch_page server (page_url (start st)) 3 w') = Some (String c rest) ->
  Bs4.select "tr[data-entity-id]" (BeautifulSoup (String c rest)) = rows ->
  rows <> [] ->
  Forall2 (fun row r => extract urljoin row = inr r) rows recs ->
  Bs4.select_one "li.pagination__item.-next a" (BeautifulSoup (String c rest)) = None ->
  (k < fuel)%nat ->
  value (scrape_individual_tests server BeautifulSoup urljoin fuel w)
  = Some (Returned NoNext (results st ++ recs))
  /\ length (visited (events (scrape_individual_tests
                                server BeautifulSoup urljoin fuel w)))
     = S k.
Proof.
  intros Hreach Hfetch Hrows Hsome Hall Hnext Hfuel.
  pose proof (iteration_rows server BeautifulSoup urljoin st w' Hfetch Hrows Hsome Hall)
    as Hstep.
  rewrite Hnext in Hstep. cbn [Bs4.truthy] in Hstep.
  unfold scrape_individual_tests. split.
  - replace fuel with (k + S (fuel - S k))%nat by lia.
    rewrite (reach_run _ _ _ _ _ _ _ Hreach), while_true_value, Hstep. reflexivity.
  - replace fuel with (k + S (fuel - S k))%nat by lia.
    clear Hfuel. generalize (fuel - S k)%nat as extra. intros extra.
    revert Hreach. generalize (mkWalk 0 []) as from. revert w.
    induction k as [|k IH]; intros w from Hreach.
    + cbn [reach] in Hreach. inversion Hreach; subst.
      cbn [Nat.add]. rewrite while_true_events, Hstep, app_nil_r, iteration_visited.
      reflexivity.
    + rewrite reach_step in Hreach. cbn [Nat.add].
      rewrite while_true_events, visited_app, iteration_visited.
      destruct (value (iteration server BeautifulSoup urljoin from w))
        as [next|via out|e]; try discriminate.
      cbn [app length]. f_equal. apply IH. exact Hreach.
Qed.

Lemma walk_ends_on_page_without_next_control_witness :
  value (scrape_individual_tests Sample.outage_site Sample.parser Sample.resolver 2 O)
  = Some (Returned NoNext ([] ++ [Sample.record_a; Sample.record_b])).
Proof.
  refine (proj1 (@walk_ends_on_page_without_next_control
                   Sample.outage_site Sample.parser Sample.resolver
                   O 1%nat (mkWalk 12 []) 3%nat "<"%char "two rows>"
                   [Sample.row_a; Sample.row_b]
                   [Sample.record_a; Sample.record_b] 2%nat _ _ _ _ _ _ _)).
  - reflexivity.
  - reflexivity.
  - reflexivity.
  - discriminate.
  - repeat constructor.
  - reflexivity.
  - lia.
Defined.

(** ** Pacing *)

Lemma rested_after_app (l1 l2 : list Event) :
  forall b, Log.rested_after b (l1 ++ l2)
            = Log.rested_after (Log.rested_after b l1) l2.
Proof.
  induction l1 as [|e l1 IH]; intros b; [reflexivity|].
  destruct e; cbn [app Log.rested_after]; apply IH.
Qed.

Lemma paced_app (l1 l2 : list Event) :
  forall b, Log.paced b (l1 ++ l2)
            = Log.paced b l1 && Log.paced (Log.rested_after b l1) l2.
Proof.
  induction l1 as [|e l1 IH]; intros b; [reflexivity|].
  destruct e; cbn [app Log.paced Log.rested_after]; rewrite IH;
    [rewrite andb_assoc|..]; reflexivity.
Qed.

(** The retry loop, entered rested, never asks twice without a sleep;
    it comes back rested exactly when it gives up. *)
Lemma fetch_attempts_paced
  (server : nat -> string -> Reply) (url : string) (retries remaining : nat) :
  forall attempt w,
    let r := fetch_attempts server url retries attempt remaining w in
    Log.paced true (events r) = true
    /\ Log.rested_after true (events r)
       = match value r with None => true | Some _ => false end.
Proof.
  induction remaining as [|n IH]; intros attempt w; cbn zeta.
  - split; reflexivity.
  - specialize (IH (S attempt) (S w)). cbn zeta in IH. destruct IH as [IHp IHr].
    cbn [fetch_attempts].
    rewrite bind_events, bind_value. cbn [session_get value events world fst snd].
    assert (Hfail :
      let r := (bind (print (NetworkError (attempt + 1) retries))
                  (fun _ => bind (sleep 5)
                     (fun _ => fetch_attempts server url retries (S attempt) n)))
               (S w) in
      Log.paced true ([Get url] ++ events r) = true
      /\ Log.rested_after true ([Get url] ++ events r)
         = match value r with None => true | Some _ => false end).
    { cbn zeta. rewrite !bind_events, !bind_value.
      cbn [print sleep emit value events world fst snd app
           Log.paced Log.rested_after andb].
      split; assumption. }
    destruct (server w url) as [|status text]; [exact Hfail|].
    destruct (raises_for_status status); [exact Hfail|]. split; reflexivity.
Qed.

(** The markup the fetcher returns is the body of a response that was
    not an error. *)
Lemma fetch_page_body
  (server : nat -> string -> Reply) (url : string) (retries : nat) (w : World)
  (text : string) :
  value (fetch_page server url retries w) = Some text ->
  exists n status_code,
    server n url = Response status_code text
    /\ raises_for_status status_code = false.
Proof.
  intros H.
  destruct (fetch_attempts_run server url retries retries 0 w) as (_ & _ & _ & Hval).
  cbn zeta in Hval. unfold fetch_page in H. rewrite Hval in H.
  destruct (Nat.ltb_spec (failures server url w retries) retries) as [Hlt|Hge];
    [|discriminate].
  pose proof (@failures_stop server url retries w Hlt) as Hstop.
  destruct (server (w + failures server url w retries)%nat url)
    as [|status text'] eqn:Hrep; [discriminate|].
  inversion H; subst. exists (w + failures server url w retries)%nat, status.
  split; assumption.
Qed.

Lemma iteration_paced
  (server : nat -> string -> Reply) (BeautifulSoup : string -> Bs4.Tag)
  (urljoin : string -> string -> option string) (st : Walk) (w : World) :
  (forall n url status_code,
      server n url = Response status_code ""%string ->
      raises_for_status status_code = true) ->
  Log.paced true (events (iteration server BeautifulSoup urljoin st w)) = true
  /\ (forall next,
         value (iteration server BeautifulSoup urljoin st w) = Continue next ->
         Log.rested_after true (events (iteration server BeautifulSoup urljoin st w))
         = true).
Proof.
  intros Hbody.
  rewrite iteration_value, iteration_events. cbn zeta.
  destruct (fetch_attempts_paced server (page_url (start st)) 3 3 0 w) as [Hp Hr].
  cbn zeta in Hp, Hr. fold (fetch_page server (page_url (start st)) 3) in Hp, Hr.
  cbn [Log.paced Log.rested_after].
  rewrite paced_app, rested_after_app, Hp, Hr. cbn [andb].
  destruct (value (fetch_page server (page_url (start st)) 3 w))
    as [[|c rest]|] eqn:Hfetch.
  - exfalso. destruct (fetch_page_body _ _ _ _ Hfetch) as (n & status & Hrep & Hok).
    rewrite (Hbody _ _ _ Hrep) in Hok. discriminate.
  - unfold handle_page.
    destruct (Bs4.select "tr[data-entity-id]" _) as [|row rows].
    + split; [reflexivity|discriminate].
    + destruct (for_rows urljoin (row :: rows) (results st)) as [e|out].
      * split; [reflexivity|discriminate].
      * destruct (Bs4.truthy _); split; try reflexivity; discriminate.
  - split; reflexivity.
Qed.

Lemma open_after_app (l1 l2 : list Event) :
  forall o, Log.open_after o (l1 ++ l2) = Log.open_after (Log.open_after o l1) l2.
Proof.
  induction l1 as [|e l1 IH]; intros o; [reflexivity|].
  destruct e as [u|t|[]]; cbn [app Log.open_after]; apply IH.
Qed.

Lemma gaps_from_app (l1 l2 : list Event) :
  forall o, Log.gaps_from o (l1 ++ l2)
            = Log.gaps_from o l1 ++ Log.gaps_from (Log.open_after o l1) l2.
Proof.
  induction l1 as [|e l1 IH]; intros o; [reflexivity|].
  destruct e as [u|t|[]]; cbn [app Log.gaps_from Log.open_after];
    try apply IH.
  destruct o; rewrite IH; reflexivity.
Qed.

(** The retry loop, entered ready, leaves only timed stretches between
    its requests; it comes back ready when it gives up, and fresh from a
    request when it has the page. *)
Lemma fetch_attempts_gaps
  (server : nat -> string -> Reply) (url : string) (retries remaining : nat) :
  forall attempt w o,
    Log.ready o ->
    let r := fetch_attempts server url retries attempt remaining w in
    Forall Log.timed (Log.gaps_from o (events r))
    /\ match value r with
       | Some _ => Log.open_after o (events r) = Some (false, 0)
       | None => Log.ready (Log.open_after o (events r))
       end.
Proof.
  induction remaining as [|n IH]; intros attempt w o Ho; cbn zeta.
  - split; [constructor|exact Ho].
  - cbn [fetch_attempts].
    rewrite bind_events, bind_value. cbn [session_get value events world fst snd].
    assert (Hhead : forall tail,
               Forall Log.timed (Log.gaps_from (Some (false, 0)) tail) ->
               Forall Log.timed (Log.gaps_from o ([Get url] ++ tail))).
    { intros tail Htail. cbn [app Log.gaps_from].
      destruct o as [g|]; [constructor; [exact Ho|exact Htail]|exact Htail]. }
    assert (Hfail :
      let r := (bind (print (NetworkError (attempt + 1) retries))
                  (fun _ => bind (sleep 5)
                     (fun _ => fetch_attempts server url retries (S attempt) n)))
               (S w) in
      Forall Log.timed (Log.gaps_from o ([Get url] ++ events r))
      /\ match value r with
         | Some _ => Log.open_after o ([Get url] ++ events r) = Some (false, 0)
         | None => Log.ready (Log.open_after o ([Get url] ++ events r))
         end).
    { cbn zeta. rewrite !bind_events, !bind_value.
      cbn [print sleep emit value events world fst snd].
      destruct (IH (S attempt) (S w) (Some (true, 0 + 5))) as [IHg IHo];
        [reflexivity|].
      split.
      - apply Hhead. exact IHg.
      - exact IHo. }
    destruct (server w url) as [|status text]; [exact Hfail|].
    destruct (raises_for_status status); [exact Hfail|].
    split; [|reflexivity]. apply Hhead. constructor.
Qed.

Lemma iteration_gaps
  (server : nat -> string -> Reply) (BeautifulSoup : string -> Bs4.Tag)
  (urljoin : string -> string -> option string) (st : Walk) (w : World)
  (o : option Log.Gap) :
  (forall n url status_code,
      server n url = Response status_code ""%string ->
      raises_for_status status_code = true) ->
  Log.ready o ->
  Forall Log.timed
    (Log.gaps_from o (events (iteration server BeautifulSoup urljoin st w)))
  /\ (forall next,
         value (iteration server BeautifulSoup urljoin st w) = Continue next ->
         Log.ready (Log.open_after o
                  (events (iteration server BeautifulSoup urljoin st w)))).
Proof.
  intros Hbody Ho.
  rewrite iteration_value, iteration_events. cbn zeta.
  destruct (fetch_attempts_gaps server (page_url (start st)) 3 3 0 w o Ho)
    as [Hg Hopen].
  cbn zeta in Hg, Hopen. fold (fetch_page server (page_url (start st)) 3) in Hg, Hopen.
  cbn [Log.gaps_from Log.open_after].
  rewrite gaps_from_app, open_after_app.
  destruct (value (fetch_page server (page_url (start st)) 3 w))
    as [[|c rest]|] eqn:Hfetch.
  - exfalso. destruct (fetch_page_body _ _ _ _ Hfetch) as (n & status & Hrep & Hok).
    rewrite (Hbody _ _ _ Hrep) in Hok. discriminate.
  - rewrite Hopen. unfold handle_page.
    destruct (Bs4.select "tr[data-entity-id]" _) as [|row rows].
    + cbn. rewrite app_nil_r. split; [exact Hg|discriminate].
    + destruct (for_rows urljoin (row :: rows) (results st)) as [e|out].
      * cbn. rewrite app_nil_r. split; [exact Hg|discriminate].
      * destruct (Bs4.truthy _); cbn; rewrite app_nil_r;
          (split; [exact Hg|]); [intros; reflexivity|discriminate].
  - cbn. rewrite app_nil_r. split; [exact Hg|]. intros next _. exact Hopen.
Qed.

(** X8. As long as the site never answers a request successfully with
    an empty body, the script never makes two requests in a row: between
    any request and the next one it has slept, five seconds when the
    first of the two failed and two seconds when it brought a page. *)
Theorem requests_are_paced
  (server : nat -> string -> Reply) (BeautifulSoup : string -> Bs4.Tag)
  (urljoin : string -> string -> option string) (fuel : nat) (w : World) :
  (forall n url status_code,
      server n url = Response status_code ""%string ->
      raises_for_status status_code = true) ->
  Log.paced true (events (scrape_individual_tests
                            server BeautifulSoup urljoin fuel w)) = true
  /\ Forall Log.timed
       (Log.gaps (events (scrape_individual_tests
                            server BeautifulSoup urljoin fuel w))).
Proof.
  intros Hbody. unfold scrape_individual_tests, Log.gaps. split.
  - generalize (mkWalk 0 []) as st. revert w.
    induction fuel as [|fuel IH]; intros w st; [reflexivity|].
    rewrite while_true_events, paced_app.
    destruct (iteration_paced server BeautifulSoup urljoin st w Hbody) as [Hp Hr].
    rewrite Hp. cbn [andb].
    destruct (value (iteration server BeautifulSoup urljoin st w))
      as [next|via out|e] eqn:Hit; try reflexivity.
    rewrite (Hr next eq_refl). apply IH.
  - assert (Hnone : Log.ready None) by exact I. revert Hnone.
    generalize (@None Log.Gap) as o. generalize (mkWalk 0 []) as st. revert w.
    induction fuel as [|fuel IH]; intros w st o Ho; [constructor|].
    rewrite while_true_events, gaps_from_app.
    destruct (iteration_gaps server BeautifulSoup urljoin st w o Hbody Ho)
      as [Hg Hnext].
    apply Forall_app. split; [exact Hg|].
    destruct (value (iteration server BeautifulSoup urljoin st w))
      as [next|via out|e] eqn:Hit; try constructor.
    apply IH. apply (Hnext next eq_refl).
Qed.

Lemma sample_bodies_not_empty (first rest : string) :
  first <> ""%string -> rest <> ""%string ->
  forall n url status_code,
    Sample.serving first rest n url = Response status_code ""%string ->
    raises_for_status status_code = true.
Proof.
  intros Hfirst Hrest n url status_code. unfold Sample.serving.
  destruct (String.eqb url (page_url 0)); intros H; inversion H; congruence.
Qed.

(** Two seconds between the two pages of the two-page catalog. *)
Lemma requests_are_paced_witness :
  Log.paced true
    (events (scrape_individual_tests
               Sample.two_page_site Sample.parser Sample.resolver 3 O)) = true
  /\ Forall Log.timed [(false, 2)].
Proof.
  apply (@requests_are_paced Sample.two_page_site Sample.parser Sample.resolver 3 O).
  apply sample_bodies_not_empty; discriminate.
Defined.

(** Without that proviso the pacing is lost: pages that come back with
    an empty body are asked for one after the other. *)
Example blank_site_is_hammered :
  events (scrape_individual_tests Sample.blank_site Sample.parser Sample.resolver 2 O)
  = [Print (ScrapingPage 0); Get (page_url 0); Print SkippingPage;
     Print (ScrapingPage 12); Get (page_url 12); Print SkippingPage].
Proof. reflexivity. Qed.

(** ** Pages the walk passes over *)

(** A walk all of whose pages from here on come back empty-handed
    ([None] or an empty body) moves on, and the same holds from the next
    offset. *)
Lemma passed_over_next
  (server : nat -> string -> Reply) (BeautifulSoup : string -> Bs4.Tag)
  (urljoin : string -> string -> option string) (st : Walk) (w : World) :
  (forall j st' w',
      reach server BeautifulSoup urljoin j st w = Some (st', w') ->
      falsy (value (fetch_page server (page_url (start st')) 3 w')) = true) ->
  value (iteration server BeautifulSoup urljoin st w)
  = Continue (mkWalk (start st + 12) (results st))
  /\ (forall j st' w',
         reach server BeautifulSoup urljoin j
           (mkWalk (start st + 12) (results st))
           (world (iteration server BeautifulSoup urljoin st w)) = Some (st', w') ->
         falsy (value (fetch_page server (page_url (start st')) 3 w')) = true).
Proof.
  intros Hdead.
  assert (Hstep : value (iteration server BeautifulSoup urljoin st w)
                  = Continue (mkWalk (start st + 12) (results st))).
  { rewrite iteration_value. cbn zeta. apply handle_page_skip.
    apply (Hdead O st w eq_refl). }
  split; [exact Hstep|].
  intros j st' w' Hreach. apply (Hdead (S j)).
  rewrite reach_step, Hstep. exact Hreach.
Qed.

Lemma passed_over_running
  (server : nat -> string -> Reply) (BeautifulSoup : string -> Bs4.Tag)
  (urljoin : string -> string -> option string) (fuel : nat) :
  forall st w,
    (forall j st' w',
        reach server BeautifulSoup urljoin j st w = Some (st', w') ->
        falsy (value (fetch_page server (page_url (start st')) 3 w')) = true) ->
    value (while_true server BeautifulSoup urljoin fuel st w) = None.
Proof.
  induction fuel as [|fuel IH]; intros st w Hdead; [reflexivity|].
  destruct (passed_over_next _ _ _ _ _ Hdead) as [Hstep Hnext].
  rewrite while_true_value, Hstep. apply IH. exact Hnext.
Qed.

Lemma passed_over_results
  (server : nat -> string -> Reply) (BeautifulSoup : string -> Bs4.Tag)
  (urljoin : string -> string -> option string) (j : nat) :
  forall st w st' w',
    (forall i st0 w0,
        reach server BeautifulSoup urljoin i st w = Some (st0, w0) ->
        falsy (value (fetch_page server (page_url (start st0)) 3 w0)) = true) ->
    reach server BeautifulSoup urljoin j st w = Some (st', w') ->
    results st' = results st.
Proof.
  induction j as [|j IH]; intros st w st' w' Hdead Hreach.
  - cbn [reach] in Hreach. inversion Hreach; reflexivity.
  - destruct (passed_over_next _ _ _ _ _ Hdead) as [Hstep Hnext].
    rewrite reach_step, Hstep in Hreach.
    apply (IH _ _ _ _ Hnext Hreach).
Qed.

(** X9. A page counts as failed when the fetcher answers [None] and
    also when it answers with an empty body.  If from some pass on every
    page the walk comes to is of either kind, the walk never ends, and
    it gathers nothing more while it runs. *)
Theorem empty_handed_pages_never_end_the_walk
  (server : nat -> string -> Reply) (BeautifulSoup : string -> Bs4.Tag)
  (urljoin : string -> string -> option string)
  (w : World) (k : nat) (st : Walk) (w' : World) :
  reach server BeautifulSoup urljoin k (mkWalk 0 []) w = Some (st, w') ->
  (forall j st' w'',
      reach server BeautifulSoup urljoin j st w' = Some (st', w'') ->
      falsy (value (fetch_page server (page_url (start st')) 3 w'')) = true) ->
  (forall fuel,
      value (scrape_individual_tests server BeautifulSoup urljoin fuel w) = None)
  /\ (forall j st' w'',
         reach server BeautifulSoup urljoin j st w' = Some (st', w'') ->
         results st' = results st).
Proof.
  intros Hreach Hdead. split.
  - intros fuel. unfold scrape_individual_tests.
    destruct (le_lt_dec k fuel) as [Hle|Hlt].
    + replace fuel with (k + (fuel - k))%nat by lia.
      rewrite (reach_run _ _ _ _ _ _ _ Hreach).
      apply passed_over_running. exact Hdead.
    + destruct (value (while_true server BeautifulSoup urljoin fuel (mkWalk 0 []) w))
        as [final|] eqn:Hend; [|reflexivity].
      apply (while_true_more _ _ _ _ _ _ (k - fuel)%nat) in Hend.
      replace (fuel + (k - fuel))%nat with (k + 0)%nat in Hend by lia.
      rewrite (reach_run _ _ _ _ _ _ _ Hreach) in Hend. discriminate.
  - intros j st' w'' Hj. eapply passed_over_results; eassumption.
Qed.

(** A site that answers every request with an empty body. *)
Lemma empty_handed_pages_never_end_the_walk_witness :
  value (scrape_individual_tests Sample.blank_site Sample.parser Sample.resolver 40 O)
  = None.
Proof.
  refine (proj1 (@empty_handed_pages_never_end_the_walk
                   Sample.blank_site Sample.parser Sample.resolver
                   O O (mkWalk 0 []) O _ _) 40%nat).
  - reflexivity.
  - intros j st' w'' _. reflexivity.
Defined.

(** ** The fields of a record *)

Lemma lstrip_fixed (s : string) :
  PyStr.is_space_opt (PyStr.first_char s) = false -> PyStr.lstrip s = s.
Proof.
  destruct s as [|c s]; simpl; [reflexivity|]. intros Hc. rewrite Hc. reflexivity.
Qed.

Lemma rstrip_fixed (s : string) :
  PyStr.is_space_opt (PyStr.last_char s) = false -> PyStr.rstrip s = s.
Proof.
  induction s as [|c s IH]; [reflexivity|].
  destruct s as [|d s'].
  - simpl. intros Hc. rewrite Hc. reflexivity.
  - intros Hlast. change (PyStr.last_char (String c (String d s')))
      with (PyStr.last_char (String d s')) in Hlast.
    pose proof (IH Hlast) as Hrest.
    change (PyStr.rstrip (String c (String d s')))
      with (match PyStr.rstrip (String d s') with
            | EmptyString =>
                if PyStr.isspace c then EmptyString else String c EmptyString
            | String x y => String c (String x y)
            end).
    rewrite Hrest. reflexivity.
Qed.

(** Stripping twice is stripping once. *)
Lemma strip_idempotent (s : string) : PyStr.strip (PyStr.strip s) = PyStr.strip s.
Proof.
  destruct (strip_trimmed s) as [Hfirst Hlast].
  unfold PyStr.strip at 1. rewrite (lstrip_fixed _ Hfirst). apply rstrip_fixed, Hlast.
Qed.

(** X10. The record of a row keeps the row's entity id as it stands
    (not stripped, [None] when the attribute is missing) and has one
    test type per key element, none dropped even when its text is blank;
    the name and every test type are already stripped, so stripping them
    again changes nothing. *)
Theorem record_fields_are_stripped_texts
  (urljoin : string -> string -> option string)
  (row : Bs4.Tag) (r : CatalogRecord) :
  extract urljoin row = inr r ->
  entityId r = Bs4.get "data-entity-id" row
  /\ PyStr.strip (name r) = name r
  /\ length (testTypes r) = length (Bs4.select ".product-catalogue__key" row)
  /\ Forall (fun t => PyStr.strip t = t) (testTypes r).
Proof.
  intros H. apply extract_ok in H.
  destruct H as (a & href & link & col0 & col1 & more & _ & _ & _ & _ & ->).
  cbn [entityId name testTypes]. split; [reflexivity|].
  split; [apply strip_idempotent|]. split; [apply length_map|].
  apply Forall_forall. intros t Ht. apply in_map_iff in Ht.
  destruct Ht as (tag & <- & _). apply strip_idempotent.
Qed.

Lemma record_fields_are_stripped_texts_witness :
  entityId Sample.record_a = Some "11"%string
  /\ length (testTypes Sample.record_a) = 3%nat.
Proof.
  destruct (@record_fields_are_stripped_texts
              Sample.resolver Sample.row_a Sample.record_a eq_refl)
    as (Hid & _ & Hlen & _).
  split; [exact Hid|exact Hlen].
Defined.

(** ** The two files, side by side *)



Lemma main_json (data : list CatalogRecord) :
  json_file (main data) = Some (PyList (map PyDict (map as_dict data))).
Proof. unfold main. destruct (apply_column _ _ _); reflexivity. Qed.

(** X12. The document is written for every record list; the table is
    written, and the summary printed, exactly when the list is not
    empty, and otherwise the script dies of [KeyError]. *)
Theorem table_is_written_iff_some_record (data : list CatalogRecord) :
  json_file (main data) = Some (PyList (map PyDict (map as_dict data)))
  /\ (csv_file (main data) = None <-> data = [])
  /\ (finished (main data) = raise KeyError <-> data = [])
  /\ (finished (main data) = ok (Saved (length data)) <-> data <> []).
Proof.
  destruct data as [|r data].
  - repeat split; try reflexivity; try discriminate; congruence.
  - rewrite main_records. cbn [json_file csv_file finished].
    repeat split; try reflexivity; try discriminate.
Qed.

Lemma py_opt_str_injective (a b : option string) :
  py_opt_str a = py_opt_str b -> a = b.
Proof. destruct a, b; intros H; inversion H; reflexivity. Qed.

(** ** What the comma join keeps *)

Lemma comma_splits (x y r r' : string) :
  comma_free x = true -> comma_free y = true ->
  (x ++ "," ++ r = y ++ "," ++ r')%string ->
  x = y /\ r = r'.
Proof.
  revert y. induction x as [|c x IH]; intros [|d y] Hx Hy H; cbn in H.
  - inversion H. auto.
  - inversion H; subst. cbn in Hy. discriminate.
  - inversion H; subst. cbn in Hx. discriminate.
  - inversion H; subst. cbn [comma_free] in Hx, Hy.
    apply andb_true_iff in Hx, Hy.
    destruct (IH y (proj2 Hx) (proj2 Hy) H2) as [-> ->]. auto.
Qed.

Lemma comma_inside (x y r : string) :
  comma_free x = true -> x <> (y ++ "," ++ r)%string.
Proof.
  revert x. induction y as [|d y IH]; intros [|c x] Hx H; cbn in H;
    try discriminate.
  - inversion H; subst. cbn in Hx. discriminate.
  - inversion H; subst. cbn [comma_free] in Hx. apply andb_true_iff in Hx.
    exact (IH _ (proj2 Hx) eq_refl).
Qed.

Lemma join_cons2 (x y : string) (l : list string) :
  PyStr.join "," (x :: y :: l) = (x ++ "," ++ PyStr.join "," (y :: l))%string.
Proof. reflexivity. Qed.

(** Lists of plain tags with the same join are the same list. *)
Lemma join_injective (l1 : list string) :
  forall l2,
    Forall plain_tag l1 -> Forall plain_tag l2 ->
    PyStr.join "," l1 = PyStr.join "," l2 -> l1 = l2.
Proof.
  induction l1 as [|x l1 IH]; intros l2 H1 H2 H.
  - destruct l2 as [|y [|z l2]]; [reflexivity|..]; inversion H2 as [|? ? [Hy _] _]; subst.
    + cbn in H. congruence.
    + rewrite join_cons2 in H. cbn in H. destruct y; [congruence|discriminate].
  - inversion H1 as [|? ? [Hx Hxc] H1']; subst.
    destruct l2 as [|y l2].
    + destruct l1 as [|x2 l1]; cbn in H; [congruence|].
      destruct x; [congruence|discriminate].
    + inversion H2 as [|? ? [Hy Hyc] H2']; subst.
      destruct l1 as [|x2 l1], l2 as [|y2 l2].
      * cbn in H. subst. reflexivity.
      * rewrite join_cons2 in H. exfalso. exact (comma_inside _ _ Hxc H).
      * rewrite join_cons2 in H. exfalso. exact (comma_inside _ _ Hyc (eq_sym H)).
      * rewrite !join_cons2 in H.
        destruct (@comma_splits _ _ _ _ Hxc Hyc H) as [-> Hrest].
        f_equal. apply IH; assumption.
Qed.

Lemma table_row_injective (r1 r2 : CatalogRecord) :
  Forall plain_tag (testTypes r1) -> Forall plain_tag (testTypes r2) ->
  table_row r1 = table_row r2 -> r1 = r2.
Proof.
  destruct r1, r2. unfold table_row.
  cbn [entityId name url remoteTesting adaptiveIrt testTypes].
  intros H1 H2 H. inversion H as [[Hid Hname Hurl Hremote Hadaptive Htypes]].
  apply py_opt_str_injective in Hid.
  apply (join_injective H1 H2) in Htypes. subst. reflexivity.
Qed.

Lemma table_rows_injective (l1 : list CatalogRecord) :
  forall l2,
    Forall (fun r => Forall plain_tag (testTypes r)) l1 ->
    Forall (fun r => Forall plain_tag (testTypes r)) l2 ->
    map table_row l1 = map table_row l2 ->
    l1 = l2.
Proof.
  induction l1 as [|a l1 IH]; intros [|b l2] H1 H2 Hrows;
    cbn [map] in Hrows; try discriminate.
  - reflexivity.
  - apply Forall_cons_iff in H1. apply Forall_cons_iff in H2.
    destruct H1 as [Ha H1], H2 as [Hb H2].
    remember (table_row a) as ra eqn:Hra. remember (table_row b) as rb eqn:Hrb.
    inversion Hrows as [[Hrow Hrest]]. subst ra rb.
    f_equal; [apply table_row_injective; assumption|apply IH; assumption].
Qed.

(** X14. The table keeps everything too as long as every test type is
    a plain tag, that is, not empty and without a comma: two record
    lists of such records that are written as the same table are the
    same list. *)
Theorem table_determines_records_with_plain_tags
  (data1 data2 : list CatalogRecord) :
  Forall (fun r => Forall plain_tag (testTypes r)) data1 ->
  Forall (fun r => Forall plain_tag (testTypes r)) data2 ->
  csv_file (main data1) = csv_file (main data2) ->
  data1 = data2.
Proof.
  intros H1 H2 H.
  destruct data1 as [|r1 data1], data2 as [|r2 data2].
  - reflexivity.
  - rewrite main_records in H. discriminate.
  - rewrite main_records in H. discriminate.
  - rewrite !main_records in H. cbn [csv_file] in H.
    apply (f_equal (fun o => match o with Some df => cells df | None => [] end)) in H.
    cbn [cells] in H. apply table_rows_injective; assumption.
Qed.

Lemma table_determines_records_with_plain_tags_witness :
  [Sample.record_a] = [Sample.record_a].
Proof.
  refine (@table_determines_records_with_plain_tags
            [Sample.record_a] [Sample.record_a] _ _ eq_refl);
    repeat constructor; discriminate.
Defined.

(** A comma inside a tag, or a tag without text, is where this stops:
    the table cannot tell these lists apart. *)
Example comma_join_is_lossy :
  PyStr.join "," ["a,b"%string] = PyStr.join "," ["a"; "b"]%string
  /\ PyStr.join "," [] = PyStr.join "," [""%string].
Proof. split; reflexivity. Qed.

(** ** The script as a whole *)

(** X15. When a row fails on some page, whichever pass that is, the
    script dies of that row's exception before line 86: neither file is
    written and the records of the pages before are lost with it. *)
Theorem failing_row_leaves_no_files
  (server : nat -> string -> Reply) (BeautifulSoup : string -> Bs4.Tag)
  (urljoin : string -> string -> option string)
  (k : nat) (st : Walk) (w' : World) (c : ascii) (rest : string)
  (before after : list Bs4.Tag) (row : Bs4.Tag) (e : Exception) (fuel : nat) :
  reach server BeautifulSoup urljoin k (mkWalk 0 []) O = Some (st, w') ->
  value (fetch_page server (page_url (start st)) 3 w') = Some (String c rest) ->
  Bs4.select "tr[data-entity-id]" (BeautifulSoup (String c rest))
  = before ++ row :: after ->
  Forall (fun r => exists rec, extract urljoin r = inr rec) before ->
  extract urljoin row = inl e ->
  (k < fuel)%nat ->
  script server BeautifulSoup urljoin fuel
  = Some {| json_file := None; csv_file := None; finished := raise e |}.
Proof.
  intros Hreach Hfetch Hrows Hbefore Hrow Hfuel.
  unfold script, scrape_individual_tests.
  replace fuel with (k + S (fuel - S k))%nat by lia.
  rewrite (reach_run _ _ _ _ _ _ _ Hreach), while_true_value.
  rewrite (@iteration_abort server BeautifulSoup urljoin st w' c rest
             before after row e Hfetch Hrows Hbefore Hrow).
  reflexivity.
Qed.

Lemma failing_row_leaves_no_files_witness :
  script Sample.one_column_site Sample.parser Sample.resolver 1
  = Some {| json_file := None; csv_file := None; finished := raise IndexError |}.
Proof.
  refine (@failing_row_leaves_no_files
            Sample.one_column_site Sample.parser Sample.resolver
            O (mkWalk 0 []) O "<"%char "one column>"
            [Sample.row_a] [Sample.row_b] Sample.row_one_col IndexError 1%nat
            _ _ _ _ _ _).
  - reflexivity.
  - reflexivity.
  - reflexivity.
  - constructor; [|constructor]. exists Sample.record_a. reflexivity.
  - reflexivity.
  - lia.
Defined.
